(** * The Wikipedia scraper of [main.py], embedded in Rocq

    The class [WikipediaScraper] drives a browser, reads fields out of the
    loaded document and appends one dictionary per article to
    [self.articles_data].  The embedding keeps that shape:

    - the browser and the clock are an explicit environment ([world]); the
      scraper reads it at a position ([tick]) that advances with every
      page load and every clock reading;
    - the object's mutable fields are a record ([scraper]) passed through
      every method;
    - a loop that Python runs until its condition fails takes a fuel
      argument and answers [None] when the fuel runs out. *)

From Stdlib Require Import ZArith Ascii DecimalString.
From stdpp Require Import base gmap sets list strings.

Local Open Scope Z_scope.

(** ** Values and documents *)

(** What Selenium hands back for a text or an attribute: a [str], or
    [None] when [get_attribute] finds no such attribute. *)
Inductive pyval := PStr (s : string) | PNone.

(** An [<a>] element: its text, the [href] attribute as the markup has it
    (what a CSS attribute selector sees) and what
    [get_attribute("href")] returns for it. *)
Record anchor := {
  a_text : string;
  a_attr : option string;
  a_href : pyval
}.

(** An [<li>] of one of the main-page digests: its first [<a>], when it has
    one, and its own text. *)
Record item := {
  it_link : option anchor;
  it_text : string
}.

(** The [#mp-tfa] box: the [p > b > a] link and the text of its first
    [p]. *)
Record tfa := {
  tfa_link : option anchor;
  tfa_p : option string
}.

(** A loaded document, as the selectors of [main.py] see it.  A lookup of
    one element either finds it or signals that there is none ([None]:
    [NoSuchElementException], or [TimeoutException] from a wait);
    [find_elements] answers a list.  Where the source wraps a
    [find_elements] in a [try], [None] stands for the lookup raising.  A
    browser session that breaks in another way is not modelled. *)
Record page := {
  pg_url : string;                        (* driver.current_url *)
  pg_firstHeading : option string;        (* By.ID "firstHeading", .text *)
  pg_intro : option string;               (* "#mw-content-text p:not(.mw-empty-elt)", .text *)
  pg_catlinks : option (list string);     (* "#mw-normal-catlinks ul li a", the texts *)
  pg_image : option pyval;                (* ".infobox img, .thumb img", the src *)
  pg_anchors : option (list anchor);      (* "#mw-content-text a", document order *)
  pg_tfa : option tfa;                    (* "#mp-tfa" *)
  pg_itn : list item;                     (* "#mp-itn ul li" *)
  pg_dyk : list item;                     (* "#mp-dyk ul li" *)
  pg_otd : list item;                     (* "#mp-otd ul li" *)
  pg_list_links : list anchor;            (* "#mw-content-text ul li a" *)
  pg_searchInput : bool;                  (* By.ID "searchInput" is there *)
  pg_searchButton : bool                  (* By.ID "searchButton" is there *)
}.

(** ** Clock *)

Record datetime := {
  year : nat; month : nat; day : nat;
  hour : nat; minute : nat; second : nat
}.

(** Decimal digits ([%Y], for a year of four digits). *)
Definition dec (n : nat) : string := NilEmpty.string_of_uint (Nat.to_uint n).

(** Two digits, zero padded ([%m], [%d], [%H], [%M], [%S]). *)
Definition dec2 (n : nat) : string :=
  if (n <? 10)%nat then "0" +:+ dec n else dec n.

(** [strftime("%Y-%m-%d %H:%M:%S")] *)
Definition strftime_record (t : datetime) : string :=
  dec (year t) +:+ "-" +:+ dec2 (month t) +:+ "-" +:+ dec2 (day t) +:+ " " +:+
  dec2 (hour t) +:+ ":" +:+ dec2 (minute t) +:+ ":" +:+ dec2 (second t).

(** [strftime("%Y%m%d_%H%M%S")] *)
Definition strftime_file (t : datetime) : string :=
  dec (year t) +:+ dec2 (month t) +:+ dec2 (day t) +:+ "_" +:+
  dec2 (hour t) +:+ dec2 (minute t) +:+ dec2 (second t).

(** ** Environment *)

(** [driver.get(url)] either loads a document or raises; in both cases the
    browser is left showing some document. *)
Inductive load_outcome :=
  | Loaded (p : page)
  | LoadFailed (err : string) (p : page).

Record world := {
  w_get : nat → string → page → load_outcome;  (* driver.get at a tick, from the shown document *)
  w_now : nat → datetime;                      (* datetime.datetime.now() at a tick *)
  w_to_csv : nat → string → bool;              (* does df.to_csv(filename) succeed *)
  w_click : nat → string → page → page         (* the document shown once the search form is sent *)
}.

(** ** Log *)


(** One constructor per [logging] call of the program, with the variable
    parts of its message; the text of a caught exception is kept where
    the environment supplies it. *)
Inductive log_entry :=
  | LogNavigated (url : string)
  | LogNavigateFailed (url err : string)
  | LogExtracted (title : string)
  | LogExtractError
  | LogLinksError
  | LogNotArticle
  | LogCrawled (n depth : Z)
  | LogFeatured (n : nat)
  | LogFeaturedError
  | LogCollected (n : Z)
  | LogNoData
  | LogSaved (filename : string)
  | LogCsvError
  | LogDriverInit
  | LogDbInit
  | LogNoSearchTerm
  | LogSearched (term : string)
  | LogSearchError
  | LogDbSaved (n : nat)
  | LogDriverClosed
  | LogDbClosed.


(** ** The scraper object *)

(** One entry of [self.articles_data]: a dictionary from field name to
    value. *)
Abbreviation article := (gmap string pyval).

Record scraper := {
  base_url : string;                      (* self.base_url *)
  db_store : bool;                        (* self.db_store *)
  search_term : option string;            (* self.search_term *)
  articles_data : list article;           (* self.articles_data *)
  driver : page;                          (* the document the browser shows *)
  tick : nat;                             (* position in the environment *)
  log : list log_entry;                   (* wiki_scraper.log *)
  csv_calls : list string;                (* df.to_csv calls, by file name *)
  files : list (string * list article);   (* CSV files written: name and rows *)
  db_rows : list article                  (* the rows of the articles table *)
}.

Definition logging (e : log_entry) (s : scraper) : scraper :=
  {| base_url := base_url s; db_store := db_store s;
     search_term := search_term s; articles_data := articles_data s;
     driver := driver s; tick := tick s; log := log s ++ [e];
     csv_calls := csv_calls s; files := files s; db_rows := db_rows s |}.

Definition append_article (a : article) (s : scraper) : scraper :=
  {| base_url := base_url s; db_store := db_store s;
     search_term := search_term s; articles_data := articles_data s ++ [a];
     driver := driver s; tick := tick s; log := log s;
     csv_calls := csv_calls s; files := files s; db_rows := db_rows s |}.

Definition show (p : page) (s : scraper) : scraper :=
  {| base_url := base_url s; db_store := db_store s;
     search_term := search_term s; articles_data := articles_data s;
     driver := p; tick := S (tick s); log := log s;
     csv_calls := csv_calls s; files := files s; db_rows := db_rows s |}.

(** [datetime.datetime.now()] *)
Definition now (w : world) (s : scraper) : datetime * scraper :=
  (w_now w (tick s),
   {| base_url := base_url s; db_store := db_store s;
      search_term := search_term s; articles_data := articles_data s;
      driver := driver s; tick := S (tick s); log := log s;
      csv_calls := csv_calls s; files := files s; db_rows := db_rows s |}).

(** ** Strings *)

(** [needle in s] *)
Fixpoint contains (needle s : string) : bool :=
  String.prefix needle s ||
  match s with
  | EmptyString => false
  | String _ s' => contains needle s'
  end.

(** [sep.join(l)] *)
Fixpoint join (sep : string) (l : list string) : string :=
  match l with
  | [] => ""
  | x :: l' =>
      match l' with
      | [] => x
      | _ :: _ => x +:+ sep +:+ join sep l'
      end
  end.

(** ** navigate_to_url *)

(** [time.sleep] only lets time pass; the clock is read from the
    environment, so the pauses leave no trace in the state. *)
Definition navigate_to_url (w : world) (url : option string) (s : scraper)
  : bool * scraper :=
  let target_url :=
    match url with
    | Some u => if String.eqb u "" then base_url s else u
    | None => base_url s
    end in
  match w_get w (tick s) target_url (driver s) with
  | Loaded p => (true, logging (LogNavigated target_url) (show p s))
  | LoadFailed e p => (false, logging (LogNavigateFailed target_url e) (show p s))
  end.

(** ** extract_article_data *)

Definition article_dict (title url summary categories image_url date_scraped : pyval)
  : article :=
  <["date_scraped" := date_scraped]>
  (<["image_url" := image_url]>
  (<["categories" := categories]>
  (<["summary" := summary]>
  (<["url" := url]>
  (<["title" := title]> ∅))))).

(** The title lookup is the only one outside an inner [try]: when it finds
    nothing the outer handler logs and the method returns [None]. *)
Definition extract_article_data (w : world) (s : scraper)
  : option article * scraper :=
  match pg_firstHeading (driver s) with
  | None => (None, logging LogExtractError s)
  | Some title =>
      let url := pg_url (driver s) in
      let summary :=
        match pg_intro (driver s) with
        | Some t => t
        | None => "Summary not found"
        end in
      let categories :=
        match pg_catlinks (driver s) with
        | Some cats => cats
        | None => []
        end in
      let image_url :=
        match pg_image (driver s) with
        | Some src => src
        | None => PStr ""
        end in
      let '(t, s1) := now w s in
      let article_data :=
        article_dict (PStr title) (PStr url) (PStr summary)
          (PStr (join "|" categories)) image_url (PStr (strftime_record t)) in
      (Some article_data,
       logging (LogExtracted title) (append_article article_data s1))
  end.

(** ** extract_links_from_article *)

(** ["#mw-content-text a[href^='/wiki/']:not([href*=':'])"] on the markup's
    attribute. *)
Definition css_article_link (a : anchor) : bool :=
  match a_attr a with
  | Some h => String.prefix "/wiki/" h && negb (contains ":" h)
  | None => false
  end.

(** The [if] of the loop: [href] is truthy and holds none of the six
    markers; the answer is the string to keep. *)
Definition article_href (href : pyval) : option string :=
  match href with
  | PStr h =>
      if negb (String.eqb h "") &&
         negb (contains "Special:" h) &&
         negb (contains "Category:" h) &&
         negb (contains "File:" h) &&
         negb (contains "Help:" h) &&
         negb (contains "Wikipedia:" h) &&
         negb (contains "Talk:" h)
      then Some h else None
  | PNone => None
  end.

(** The dictionary [{'text': ..., 'href': ...}]. *)
Record link := { text : string; href : string }.

(** The [for] loop, with [article_links] as accumulator; the length is
    tested after the append. *)
Fixpoint harvest (max_links : Z) (link_elements : list anchor)
    (article_links : list link) : list link :=
  match link_elements with
  | [] => article_links
  | l :: rest =>
      match article_href (a_href l) with
      | Some h =>
          let article_links' :=
            article_links ++ [{| text := a_text l; href := h |}] in
          if bool_decide (max_links ≤ Z.of_nat (length article_links'))
          then article_links'
          else harvest max_links rest article_links'
      | None => harvest max_links rest article_links
      end
  end.

Definition extract_links_from_article (max_links : Z) (s : scraper)
  : list link * scraper :=
  match pg_anchors (driver s) with
  | Some anchors => (harvest max_links (filter css_article_link anchors) [], s)
  | None => ([], logging LogLinksError s)
  end.

(** ** crawl_related_articles *)

(** The locals of the method while the loop runs.  [enqueued] is not in the
    source: it records every url put on [queue], in order. *)
Record crawl_state := {
  queue : list (string * Z);
  visited_urls : gset string;
  articles_crawled : Z;
  enqueued : list string;
  me : scraper
}.

(** [queue.append((url, d))] *)
Definition queue_append (url : string) (d : Z) (c : crawl_state) : crawl_state :=
  {| queue := queue c ++ [(url, d)]; visited_urls := visited_urls c;
     articles_crawled := articles_crawled c;
     enqueued := enqueued c ++ [url]; me := me c |}.

(** [for link in links: if link['href'] not in visited_urls: ...] *)
Fixpoint enqueue_links (links : list link) (url_depth : Z) (c : crawl_state)
  : crawl_state :=
  match links with
  | [] => c
  | l :: rest =>
      enqueue_links rest url_depth
        (if bool_decide (href l ∈ visited_urls c) then c
         else queue_append (href l) (url_depth + 1) c)
  end.

(** How one pass through the body of [while] ends. *)
Inductive control :=
  | Next (c : crawl_state)      (* [continue], or the end of the body *)
  | Break (c : crawl_state).

(** The body of the loop, after [queue.pop(0)] has produced
    [(current_url, url_depth)] and left [rest]. *)
Definition crawl_body (w : world) (depth max_articles : Z)
    (current_url : string) (url_depth : Z) (rest : list (string * Z))
    (c : crawl_state) : control :=
  if bool_decide (current_url ∈ visited_urls c) then
    Next {| queue := rest; visited_urls := visited_urls c;
            articles_crawled := articles_crawled c;
            enqueued := enqueued c; me := me c |}
  else
    let '(_, s1) := navigate_to_url w (Some current_url) (me c) in
    let visited := {[current_url]} ∪ visited_urls c in
    let '(_, s2) := extract_article_data w s1 in
    let crawled := articles_crawled c + 1 in
    if bool_decide (max_articles ≤ crawled) then
      Break {| queue := rest; visited_urls := visited;
               articles_crawled := crawled; enqueued := enqueued c;
               me := s2 |}
    else if bool_decide (url_depth < depth) then
      let '(links, s3) := extract_links_from_article 10 s2 in
      Next (enqueue_links links url_depth
              {| queue := rest; visited_urls := visited;
                 articles_crawled := crawled; enqueued := enqueued c;
                 me := s3 |})
    else
      Next {| queue := rest; visited_urls := visited;
              articles_crawled := crawled; enqueued := enqueued c;
              me := s2 |}.

(** [while queue and articles_crawled < max_articles: ...] *)
Fixpoint crawl_loop (w : world) (depth max_articles : Z) (fuel : nat)
    (c : crawl_state) : option crawl_state :=
  match queue c with
  | [] => Some c
  | (current_url, url_depth) :: rest =>
      if bool_decide (articles_crawled c < max_articles) then
        match fuel with
        | O => None
        | S fuel' =>
            match crawl_body w depth max_articles current_url url_depth rest c with
            | Next c' => crawl_loop w depth max_articles fuel' c'
            | Break c' => Some c'
            end
        end
      else Some c
  end.

(** The locals as the loop finds them: the start page is marked visited,
    extracted and counted, then put on the queue at depth 0. *)
Definition crawl_start (w : world) (s : scraper) : crawl_state :=
  let visited := {[pg_url (driver s)]} in
  let '(_, s1) := extract_article_data w s in
  {| queue := [(pg_url (driver s1), 0)]; visited_urls := visited;
     articles_crawled := 1; enqueued := [pg_url (driver s1)]; me := s1 |}.

Definition crawl_related_articles (w : world) (depth max_articles : Z)
    (fuel : nat) (s : scraper) : option (bool * scraper) :=
  if negb (String.prefix "https://en.wikipedia.org/wiki/" (pg_url (driver s)))
  then Some (false, logging LogNotArticle s)
  else
    match crawl_loop w depth max_articles fuel (crawl_start w s) with
    | Some c =>
        Some (true, logging (LogCrawled (articles_crawled c) depth) (me c))
    | None => None
    end.

(** ** extract_featured_articles *)

Definition main_page_url : string := "https://en.wikipedia.org/wiki/Main_Page".

Definition archive_url : string :=
  "https://en.wikipedia.org/wiki/Wikipedia:Today%27s_featured_article/Archives".

(** The dictionaries the method builds itself: [categories] is a fixed
    label and [image_url] is empty. *)
Definition append_labelled (w : world) (title : string) (url : pyval)
    (summary label : string) (s : scraper) : scraper :=
  let '(t, s1) := now w s in
  append_article
    (article_dict (PStr title) url (PStr summary) (PStr label) (PStr "")
       (PStr (strftime_record t))) s1.

(** One turn of a digest loop: an item without a link raises inside the
    [try] and is passed over. *)
Definition digest_item (w : world) (label : string) (it : item) (s : scraper)
  : scraper :=
  match it_link it with
  | Some a => append_labelled w (a_text a) (a_href a) (it_text it) label s
  | None => s
  end.

(** [for item in items[:5]: ...] *)
Definition digest (w : world) (label : string) (items : list item)
    (s : scraper) : scraper :=
  foldl (λ s' it, digest_item w label it s') s (take 5 items).

(** [for link in archive_links: ...], with the length test at the head of
    each turn. *)
Fixpoint archive_loop (w : world) (count : Z) (archive_links : list anchor)
    (s : scraper) : scraper :=
  match archive_links with
  | [] => s
  | l :: rest =>
      if bool_decide (count ≤ Z.of_nat (length (articles_data s))) then s
      else
        archive_loop w count rest
          (append_labelled w (a_text l) (a_href l)
             ("Featured article archive: " +:+ a_text l) "Featured archive" s)
  end.

(** Lines 290 to 348: the three digests of the page that is shown. *)
Definition digests (w : world) (s : scraper) : scraper :=
  let s2 := digest w "In the news" (pg_itn (driver s)) s in
  let s3 := digest w "Did you know" (pg_dyk (driver s2)) s2 in
  digest w "On this day" (pg_otd (driver s3)) s3.

(** Lines 350 to 372. *)
Definition archive_top_up (w : world) (count : Z) (s : scraper) : scraper :=
  if bool_decide (Z.of_nat (length (articles_data s)) < count) then
    let '(_, s') := navigate_to_url w (Some archive_url) s in
    archive_loop w count (take 10 (pg_list_links (driver s'))) s'
  else s.

(** Lines 267 to 348: the lead feature, then the three digests.  A lookup
    of the lead that finds nothing raises before any record is appended
    ([None]). *)
Definition featured_zones (w : world) (s0 : scraper) : option scraper :=
  match pg_tfa (driver s0) with
  | None => None
  | Some featured_article =>
      match tfa_link featured_article with
      | None => None
      | Some title_element =>
          match tfa_p featured_article with
          | None => None
          | Some summary =>
              Some (digests w
                      (append_labelled w (a_text title_element)
                         (a_href title_element) summary "Featured" s0))
          end
      end
  end.

Definition extract_featured_articles (w : world) (count : Z) (s : scraper)
  : bool * scraper :=
  let '(_, s0) := navigate_to_url w (Some main_page_url) s in
  match featured_zones w s0 with
  | None => (false, logging LogFeaturedError s0)
  | Some s4 =>
      let s5 := archive_top_up w count s4 in
      (true, logging (LogFeatured (length (articles_data s5))) s5)
  end.

(** ** collect_random_articles *)

Definition random_url : string := "https://en.wikipedia.org/wiki/Special:Random".

(** The body of the loop: load a random page and extract it; the answer
    says whether [article_data] was truthy. *)
Definition random_body (w : world) (s : scraper) : bool * scraper :=
  let '(_, s1) := navigate_to_url w (Some random_url) s in
  let '(article_data, s2) := extract_article_data w s1 in
  (bool_decide (is_Some article_data), s2).

(** [while articles_collected < count: ...] *)
Fixpoint random_loop (w : world) (count : Z) (fuel : nat)
    (articles_collected : Z) (s : scraper) : option (Z * scraper) :=
  if bool_decide (articles_collected < count) then
    match fuel with
    | O => None
    | S fuel' =>
        let '(ok, s') := random_body w s in
        random_loop w count fuel'
          (if ok then articles_collected + 1 else articles_collected) s'
    end
  else Some (articles_collected, s).

Definition collect_random_articles (w : world) (count : Z) (fuel : nat)
    (s : scraper) : option (bool * scraper) :=
  match random_loop w count fuel 0 s with
  | Some (articles_collected, s') =>
      Some (true, logging (LogCollected articles_collected) s')
  | None => None
  end.

(** ** save_to_csv *)

(** [pd.DataFrame(self.articles_data).to_csv(filename, index=False)]: the
    rows handed to the file are the dictionaries of the list; how pandas
    lays them out as text is outside this development. *)
Definition to_csv (w : world) (filename : string) (s : scraper)
  : bool * scraper :=
  let ok := w_to_csv w (tick s) filename in
  (ok,
   {| base_url := base_url s; db_store := db_store s;
      search_term := search_term s; articles_data := articles_data s;
      driver := driver s; tick := tick s; log := log s;
      csv_calls := csv_calls s ++ [filename];
      files := if ok then files s ++ [(filename, articles_data s)]
               else files s;
      db_rows := db_rows s |}).

Definition save_to_csv (w : world) (s : scraper) : bool * scraper :=
  match articles_data s with
  | [] => (false, logging LogNoData s)
  | _ :: _ =>
      let '(t, s1) := now w s in
      let filename := "wikipedia_articles_" +:+ strftime_file t +:+ ".csv" in
      let '(ok, s2) := to_csv w filename s1 in
      if ok then (true, logging (LogSaved filename) s2)
      else (false, logging LogCsvError s2)
  end.

(** ** search_wikipedia *)

(** Truthiness of an optional string: [None] and [""] are false. *)
Definition given (o : option string) : bool :=
  match o with
  | Some t => negb (String.eqb t "")
  | None => false
  end.

(** The two lookups of the form raise when the element is missing; typing
    into the box leaves no trace here, and sending the form shows the
    document the environment answers with. *)
Definition search_wikipedia (w : world) (search_term_arg : option string)
    (s : scraper) : bool * scraper :=
  match (if given search_term_arg then search_term_arg else search_term s) with
  | Some term =>
      if String.eqb term "" then (false, logging LogNoSearchTerm s)
      else
        let s1 :=
          if contains "wikipedia.org" (pg_url (driver s)) then s
          else (navigate_to_url w None s).2 in
        if pg_searchInput (driver s1) && pg_searchButton (driver s1) then
          (true,
           logging (LogSearched term)
             (show (w_click w (tick s1) term (driver s1)) s1))
        else (false, logging LogSearchError s1)
  | None => (false, logging LogNoSearchTerm s)
  end.

(** ** save_to_database and close *)

(** sqlite3 is taken to succeed: the rows are the records, in order. *)
Definition save_to_database (s : scraper) : bool * scraper :=
  if negb (db_store s) then (false, s)
  else
    match articles_data s with
    | [] => (false, s)
    | _ :: _ =>
        (true,
         logging (LogDbSaved (length (articles_data s)))
           {| base_url := base_url s; db_store := db_store s;
              search_term := search_term s;
              articles_data := articles_data s; driver := driver s;
              tick := tick s; log := log s; csv_calls := csv_calls s;
              files := files s; db_rows := db_rows s ++ articles_data s |})
    end.

Definition close (s : scraper) : scraper :=
  let s1 := logging LogDriverClosed s in
  if db_store s then logging LogDbClosed s1 else s1.

(** ** main *)

(** The parsed command line. *)
Record args := {
  arg_search : option string;
  arg_url : string;
  arg_headless : bool;
  arg_db : bool;
  arg_featured : bool;
  arg_crawl : bool;
  arg_random : bool;
  arg_depth : Z;
  arg_max_articles : Z
}.

(** What a browser shows before its first load. *)
Definition blank_document : page :=
  {| pg_url := "data:,"; pg_firstHeading := None; pg_intro := None;
     pg_catlinks := None; pg_image := None; pg_anchors := None;
     pg_tfa := None; pg_itn := []; pg_dyk := []; pg_otd := [];
     pg_list_links := []; pg_searchInput := false;
     pg_searchButton := false |}.

(** [WikipediaScraper(base_url=args.url, headless=args.headless,
    db_store=args.db, search_term=args.search)] *)
Definition WikipediaScraper (a : args) : scraper :=
  let s :=
    {| base_url := arg_url a; db_store := arg_db a;
       search_term := arg_search a; articles_data := [];
       driver := blank_document; tick := 0; log := [LogDriverInit];
       csv_calls := []; files := []; db_rows := [] |} in
  if arg_db a then logging LogDbInit s else s.

(** Lines 481 to 505 of [main]: the first load and the chosen strategy.
    The boolean is [false] when the function [return]s from there and
    [true] when control goes on to the saving of the data. *)
Definition acquire (w : world) (a : args) (fuel : nat) (s : scraper)
  : option (bool * scraper) :=
  let '(loaded, s1) := navigate_to_url w None s in
  if negb loaded then Some (false, s1)
  else if given (arg_search a) then
    let '(found, s2) := search_wikipedia w None s1 in
    if negb found then Some (false, s2)
    else
      match crawl_related_articles w (arg_depth a) (arg_max_articles a) fuel s2 with
      | Some (_, s3) => Some (true, s3)
      | None => None
      end
  else if arg_featured a then
    Some (true, (extract_featured_articles w (arg_max_articles a) s1).2)
  else if arg_random a then
    match collect_random_articles w (arg_max_articles a) fuel s1 with
    | Some (_, s2) => Some (true, s2)
    | None => None
    end
  else if arg_crawl a then
    match crawl_related_articles w (arg_depth a) (arg_max_articles a) fuel s1 with
    | Some (_, s2) => Some (true, s2)
    | None => None
    end
  else
    let '(_, s2) := extract_featured_articles w 10 s1 in
    if bool_decide (Z.of_nat (length (articles_data s2)) < 20) then
      match collect_random_articles w
              (20 - Z.of_nat (length (articles_data s2))) fuel s2 with
      | Some (_, s3) => Some (true, s3)
      | None => None
      end
    else Some (true, s2).

(** The scraper as [main] leaves it; [close] runs in the [finally]. *)
Definition main (w : world) (a : args) (fuel : nat) : option scraper :=
  match acquire w a fuel (WikipediaScraper a) with
  | Some (true, s) =>
      let '(_, s1) := save_to_csv w s in
      let s2 := if arg_db a then (save_to_database s1).2 else s1 in
      Some (close s2)
  | Some (false, s) => Some (close s)
  | None => None
  end.

(** ** Reading the export back *)

(** Modelled from the spec: the re-split of an exported [categories] cell
    on the pipe delimiter.  The repository writes the cell and has no
    reader; this is Python's [cell.split(sep)] for a one-character
    separator. *)
Fixpoint split_on (sep : ascii) (cell : string) : list string :=
  match cell with
  | EmptyString => [""]
  | String a rest =>
      if Ascii.eqb a sep then "" :: split_on sep rest
      else
        match split_on sep rest with
        | [] => [String a ""]
        | piece :: pieces => String a piece :: pieces
        end
  end.

(** * Vocabulary of the properties *)

(** ** Records *)

Definition six_keys : gset string :=
  {["title"; "url"; "summary"; "categories"; "image_url"; "date_scraped"]}.

(** The dictionary has the six keys and no other. *)
Definition well_keyed (r : article) : Prop := dom r = six_keys.

(** The dictionary has the six keys and its title is a string. *)
Definition complete_record (r : article) : Prop :=
  well_keyed r ∧ ∃ t, r !! "title" = Some (PStr t).

Definition nonempty (v : option pyval) : bool :=
  match v with
  | Some (PStr s) => negb (String.eqb s "")
  | _ => false
  end.

(** [title] and [url] are non-empty strings. *)
Definition has_title_and_url (r : article) : bool :=
  nonempty (r !! "title") && nonempty (r !! "url").

(** [s'] is [s] with some records appended, all satisfying [P]. *)
Definition appends_only (P : article → Prop) (s s' : scraper) : Prop :=
  ∃ new, articles_data s' = articles_data s ++ new ∧ Forall P new.

(** ** The harvest, as a filter *)

(** The link an anchor contributes, when it passes the [if] of the loop. *)
Definition kept (a : anchor) : option link :=
  (λ h, {| text := a_text a; href := h |}) <$> article_href (a_href a).

(** The six markers of the denylist. *)
Definition markers : list string :=
  ["Special:"; "Category:"; "File:"; "Help:"; "Wikipedia:"; "Talk:"].

(** ** Distance to the end of the crawl *)

(** The entries still queued, and ten more for each record the budget
    still allows: every turn of the loop brings this down. *)
Definition crawl_measure (max_articles : Z) (c : crawl_state) : nat :=
  (length (queue c) + 10 * Z.to_nat (max_articles - articles_crawled c))%nat.

(** ** The random-sampling loop, turn by turn *)

(** How many of the first [k] turns of the loop body, run from [s],
    extract a record. *)
Fixpoint successes (w : world) (k : nat) (s : scraper) : nat :=
  match k with
  | O => O
  | S k' =>
      let '(ok, s') := random_body w s in
      ((if ok then 1 else 0) + successes w k' s')%nat
  end.

(** ** The loads of a run *)

(** The addresses [driver.get] was called with, read off the log: every
    call of [navigate_to_url] logs its target, loaded or not. *)
Definition loaded (l : list log_entry) : list string :=
  omap (λ e, match e with
             | LogNavigated u | LogNavigateFailed u _ => Some u
             | _ => None
             end) l.

(** The [categories] of a list of records. *)
Definition labels_of (rs : list article) : list (option pyval) :=
  (λ r : article, r !! "categories") <$> rs.

(** [s'] is [s] with records appended whose [categories] are the labels
    [ls], in that order, and whose [image_url] is empty. *)
Definition grows_by (ls : list string) (s s' : scraper) : Prop :=
  ∃ new,
    articles_data s' = articles_data s ++ new ∧
    labels_of new = (λ l, Some (PStr l)) <$> ls ∧
    Forall (λ r : article, r !! "image_url" = Some (PStr "")) new.

(** ** What a method leaves alone *)

(** [s'] has the sinks, and the settings, of [s]. *)
Definition same_sinks (s s' : scraper) : Prop :=
  csv_calls s' = csv_calls s ∧ files s' = files s ∧
  db_rows s' = db_rows s ∧ db_store s' = db_store s.

(** * Sample documents, environments and command lines *)

(** ** Documents *)

Definition wiki (name : string) : string :=
  "https://en.wikipedia.org/wiki/" +:+ name.

(** A link to the article [name], as MediaWiki renders it. *)
Definition wikilink (name : string) : anchor :=
  {| a_text := name; a_attr := Some ("/wiki/" +:+ name);
     a_href := PStr (wiki name) |}.

(** An article page with a heading, an introduction, two categories and
    the given links in its content. *)
Definition article_page (name : string) (anchors : list anchor) : page :=
  {| pg_url := wiki name; pg_firstHeading := Some name;
     pg_intro := Some (name +:+ " is an article.");
     pg_catlinks := Some ["Letters"; "Things"];
     pg_image := None; pg_anchors := Some anchors; pg_tfa := None;
     pg_itn := []; pg_dyk := []; pg_otd := []; pg_list_links := [];
     pg_searchInput := true; pg_searchButton := true |}.

(** [A] links to [B] twice and to [C]; [B] links back to [A] and to [C]. *)
Definition page_A : page :=
  article_page "A" [wikilink "B"; wikilink "B"; wikilink "C"].
Definition page_B : page := article_page "B" [wikilink "A"; wikilink "C"].
Definition page_C : page := article_page "C" [].

(** A document in which no selector of the scraper finds anything. *)
Definition bare_page (url : string) : page :=
  {| pg_url := url; pg_firstHeading := None; pg_intro := None;
     pg_catlinks := None; pg_image := None; pg_anchors := None;
     pg_tfa := None; pg_itn := []; pg_dyk := []; pg_otd := [];
     pg_list_links := [];
     pg_searchInput := false; pg_searchButton := false |}.

(** A page with a heading and nothing else. *)
Definition heading_only_page : page :=
  {| pg_url := wiki "A"; pg_firstHeading := Some "A"; pg_intro := None;
     pg_catlinks := None; pg_image := None; pg_anchors := None;
     pg_tfa := None; pg_itn := []; pg_dyk := []; pg_otd := [];
     pg_list_links := [];
     pg_searchInput := true; pg_searchButton := true |}.


(** A page with one category, whose text has a pipe in it. *)
Definition piped_page : page :=
  {| pg_url := wiki "A"; pg_firstHeading := Some "A";
     pg_intro := Some "A is an article."; pg_catlinks := Some ["Pipes|Tubes"];
     pg_image := None; pg_anchors := Some []; pg_tfa := None;
     pg_itn := []; pg_dyk := []; pg_otd := []; pg_list_links := [];
     pg_searchInput := true; pg_searchButton := true |}.

(** A page whose heading element is there and shows no text, as the
    heading of the main page does. *)
Definition hidden_heading_page : page :=
  {| pg_url := main_page_url; pg_firstHeading := Some "";
     pg_intro := Some "Welcome."; pg_catlinks := Some [];
     pg_image := None; pg_anchors := Some []; pg_tfa := None;
     pg_itn := []; pg_dyk := []; pg_otd := []; pg_list_links := [];
     pg_searchInput := true; pg_searchButton := true |}.

(** A main page with its lead feature and one news item that has a link
    and one that has none. *)
Definition main_page_doc : page :=
  {| pg_url := main_page_url; pg_firstHeading := Some "";
     pg_intro := None; pg_catlinks := None; pg_image := None;
     pg_anchors := Some [];
     pg_tfa := Some {| tfa_link := Some (wikilink "Lead");
                       tfa_p := Some "Lead is the featured article." |};
     pg_itn := [ {| it_link := Some (wikilink "News");
                    it_text := "News happened." |};
                 {| it_link := None; it_text := "More news." |} ];
     pg_dyk := []; pg_otd := []; pg_list_links := [];
     pg_searchInput := true; pg_searchButton := true |}.

(** The archive listing, with three links. *)
Definition archive_doc : page :=
  {| pg_url := archive_url; pg_firstHeading := Some "Archives";
     pg_intro := None; pg_catlinks := None; pg_image := None;
     pg_anchors := Some []; pg_tfa := None; pg_itn := []; pg_dyk := [];
     pg_otd := [];
     pg_list_links := [wikilink "Old1"; wikilink "Old2"; wikilink "Old3"];
     pg_searchInput := true; pg_searchButton := true |}.

(** ** Environments *)

Definition noon : datetime :=
  {| year := 2024; month := 3; day := 9; hour := 12; minute := 0; second := 5 |}.

(** A site: [driver.get] loads the page of that address when there is one
    and fails, leaving the shown document in place, when there is none. *)
Definition site (pages : list page) : world :=
  {| w_get := λ _ url shown,
       match List.find (λ p, String.eqb (pg_url p) url) pages with
       | Some p => Loaded p
       | None => LoadFailed "net::ERR_NAME_NOT_RESOLVED" shown
       end;
     w_now := λ _, noon;
     w_to_csv := λ _ _, true;
     w_click := λ _ term shown,
       match List.find (λ p, String.eqb (pg_url p) (wiki term)) pages with
       | Some p => p
       | None => shown
       end |}.

Definition three_pages : world := site [page_A; page_B; page_C].

(** A site with the page [A] alone: every other address fails to load and
    leaves the browser on the document it was showing. *)
Definition only_A : world := site [page_A].

Definition featured_site : world := site [main_page_doc; archive_doc; page_A].

(** An environment in which every load shows the same document. *)
Definition always (p : page) : world :=
  {| w_get := λ _ _ _, Loaded p; w_now := λ _, noon;
     w_to_csv := λ _ _, true; w_click := λ _ _ _, p |}.

(** ** Scrapers *)

(** A fresh scraper whose browser shows [p]. *)
Definition scraper_on (p : page) : scraper :=
  {| base_url := main_page_url; db_store := false; search_term := None;
     articles_data := []; driver := p; tick := 0; log := [];
     csv_calls := []; files := []; db_rows := [] |}.

(** A scraper that already holds two records, from two extractions of
    [A]. *)
Definition two_records : scraper :=
  (extract_article_data featured_site
     (extract_article_data featured_site (scraper_on page_A)).2).2.

(** The locals of the crawl loop with [A] extracted and shown, and an entry
    for [B] at the head of the queue. *)
Definition at_entry_B (w : world) : crawl_state :=
  {| queue := [(wiki "B", 0)]; visited_urls := {[wiki "A"]};
     articles_crawled := 1; enqueued := [wiki "B"];
     me := (extract_article_data w (scraper_on page_A)).2 |}.

(** A scraper with the database store on, holding the two records. *)
Definition scraper_with_store : scraper :=
  {| base_url := main_page_url; db_store := true; search_term := None;
     articles_data := articles_data two_records; driver := page_A;
     tick := 2; log := []; csv_calls := []; files := []; db_rows := [] |}.

(** ** Command lines *)

(** No option given: every default of the parser. *)
Definition no_options : args :=
  {| arg_search := None; arg_url := main_page_url; arg_headless := false;
     arg_db := false; arg_featured := false; arg_crawl := false;
     arg_random := false; arg_depth := 2; arg_max_articles := 25 |}.

(** [--url https://en.wikipedia.org/wiki/A --featured] *)
Definition featured_from_A : args :=
  {| arg_search := None; arg_url := wiki "A"; arg_headless := false;
     arg_db := false; arg_featured := true; arg_crawl := false;
     arg_random := false; arg_depth := 2; arg_max_articles := 25 |}.

(** [--crawl] *)
Definition crawl_only : args :=
  {| arg_search := None; arg_url := main_page_url; arg_headless := false;
     arg_db := false; arg_featured := false; arg_crawl := true;
     arg_random := false; arg_depth := 2; arg_max_articles := 25 |}.


(** * Properties *)

(** ** The dictionaries *)

Lemma article_dict_well_keyed t u s c i d :
  well_keyed (article_dict t u s c i d).
Proof.
  unfold well_keyed, article_dict, six_keys.
  rewrite !dom_insert_L, dom_empty_L. set_solver.
Qed.

Lemma article_dict_lookup t u s c i d :
  article_dict t u s c i d !! "title" = Some t ∧
  article_dict t u s c i d !! "url" = Some u ∧
  article_dict t u s c i d !! "summary" = Some s ∧
  article_dict t u s c i d !! "categories" = Some c ∧
  article_dict t u s c i d !! "image_url" = Some i ∧
  article_dict t u s c i d !! "date_scraped" = Some d.
Proof. repeat split; reflexivity. Qed.

Lemma article_dict_complete t u s c i d :
  complete_record (article_dict (PStr t) u s c i d).
Proof. split; [apply article_dict_well_keyed | by exists t]. Qed.

(** ** extract_article_data *)



(** A page with a heading and nothing else: every fallback at once. *)
Example extract_fallbacks :
  (extract_article_data (site []) (scraper_on heading_only_page)).1 =
  Some (article_dict (PStr "A") (PStr (wiki "A")) (PStr "Summary not found")
          (PStr "") (PStr "") (PStr "2024-03-09 12:00:05")).
Proof. vm_compute. reflexivity. Qed.

(** What the method does to the list of records. *)
Lemma extract_article_data_appends (w : world) (s : scraper) :
  appends_only complete_record s (extract_article_data w s).2 ∧
  (length (articles_data (extract_article_data w s).2) =
     length (articles_data s) +
     if bool_decide (is_Some (extract_article_data w s).1) then 1 else 0)%nat.
Proof.
  unfold extract_article_data, appends_only.
  destruct (pg_firstHeading (driver s)) as [title|]; simpl.
  - split.
    + eexists [_]. split; [reflexivity|].
      constructor; [apply article_dict_complete | constructor].
    + rewrite length_app. simpl. lia.
  - split; [exists []; by rewrite app_nil_r | lia].
Qed.

(** The extraction touches neither the browser nor the files. *)
Lemma extract_article_data_frame (w : world) (s : scraper) :
  driver (extract_article_data w s).2 = driver s ∧
  base_url (extract_article_data w s).2 = base_url s ∧
  files (extract_article_data w s).2 = files s.
Proof.
  unfold extract_article_data.
  by destruct (pg_firstHeading (driver s)).
Qed.

(** ** extract_links_from_article *)

(** Below the cap the loop appends the anchors that pass, until the cap is
    met. *)
Lemma harvest_take (cap : Z) (elems : list anchor) (acc : list link) :
  Z.of_nat (length acc) < cap →
  harvest cap elems acc =
  acc ++ take (Z.to_nat cap - length acc) (omap kept elems).
Proof.
  revert acc. induction elems as [|a elems IH]; intros acc Hlt; simpl.
  - by rewrite take_nil, app_nil_r.
  - unfold kept at 1. destruct (article_href (a_href a)) as [h|]; simpl.
    + rewrite length_app. simpl. case_bool_decide as Hcap.
      * replace (Z.to_nat cap - length acc)%nat with 1%nat by lia.
        simpl. by rewrite take_0.
      * rewrite IH by (rewrite length_app; simpl; lia).
        rewrite length_app. simpl.
        replace (Z.to_nat cap - length acc)%nat
          with (S (Z.to_nat cap - (length acc + 1)))%nat by lia.
        simpl. by rewrite <- app_assoc.
    + by apply IH.
Qed.

(** For a cap of at least one the harvester answers the first [cap]
    anchors, in document order, among those the selector matches and the
    denylist lets through; when the scan fails it answers the empty list
    and logs. *)
Lemma extract_links_first_cap (cap : Z) (s : scraper) :
  1 ≤ cap →
  (extract_links_from_article cap s).1 =
  match pg_anchors (driver s) with
  | Some anchors =>
      take (Z.to_nat cap) (omap kept (filter css_article_link anchors))
  | None => []
  end.
Proof.
  intros Hcap. unfold extract_links_from_article.
  destruct (pg_anchors (driver s)) as [anchors|]; [|done]. simpl.
  rewrite harvest_take by (simpl; lia). simpl. f_equal. lia.
Qed.

(** So it answers at most [cap] links. *)
Lemma extract_links_at_most_cap (cap : Z) (s : scraper) :
  1 ≤ cap → Z.of_nat (length (extract_links_from_article cap s).1) ≤ cap.
Proof.
  intros Hcap. rewrite extract_links_first_cap by done.
  destruct (pg_anchors (driver s)); simpl; [|lia].
  rewrite length_take. lia.
Qed.

(** An address that passes the [if] holds none of the markers. *)
Lemma article_href_clean (v : pyval) (h m : string) :
  article_href v = Some h → m ∈ markers → contains m h = false.
Proof.
  unfold article_href. destruct v as [h'|]; [|done].
  destruct (negb (String.eqb h' "")); [|done]. simpl.
  destruct (contains "Special:" h') eqn:E1; [done|].
  destruct (contains "Category:" h') eqn:E2; [done|].
  destruct (contains "File:" h') eqn:E3; [done|].
  destruct (contains "Help:" h') eqn:E4; [done|].
  destruct (contains "Wikipedia:" h') eqn:E5; [done|].
  destruct (contains "Talk:" h') eqn:E6; [done|].
  simpl. intros [= <-] Hm. unfold markers in Hm.
  repeat (apply elem_of_cons in Hm as [->|Hm]; [done|]).
  by apply elem_of_nil in Hm.
Qed.

(** Whatever the cap, a returned link comes from an anchor of the content
    whose [href] attribute starts with [/wiki/] and has no colon, and its
    address holds none of the six markers. *)
Lemma extract_links_filtered (cap : Z) (s : scraper) (l : link) :
  l ∈ (extract_links_from_article cap s).1 →
  ∃ anchors a attr,
    pg_anchors (driver s) = Some anchors ∧ a ∈ anchors ∧
    a_attr a = Some attr ∧ String.prefix "/wiki/" attr = true ∧
    contains ":" attr = false ∧
    a_href a = PStr (href l) ∧ text l = a_text a ∧
    ∀ m, m ∈ markers → contains m (href l) = false.
Proof.
  unfold extract_links_from_article.
  destruct (pg_anchors (driver s)) as [anchors|]; simpl;
    [|by intros ?%elem_of_nil].
  intros Hl. exists anchors.
  assert (Hgen : ∀ elems acc,
    l ∈ harvest cap elems acc → l ∈ acc ∨ ∃ a, a ∈ elems ∧ kept a = Some l).
  { induction elems as [|a elems IH]; intros acc; simpl; [auto|].
    destruct (article_href (a_href a)) as [h|] eqn:Eh.
    - case_bool_decide.
      + intros [?| ->%list_elem_of_singleton]%elem_of_app; [auto|].
        right. exists a. split; [left|]. unfold kept. by rewrite Eh.
      + intros [[?| ->%list_elem_of_singleton]%elem_of_app|(b&?&?)]%IH; [auto| |].
        * right. exists a. split; [left|]. unfold kept. by rewrite Eh.
        * right. exists b. split; [by right|done].
    - intros [?|(b&?&?)]%IH; [auto|]. right. exists b. split; [by right|done]. }
  apply Hgen in Hl as [Hl%elem_of_nil|(a & [Hcss Ha]%list_elem_of_filter & Hk)]; [done|].
  unfold css_article_link in Hcss.
  destruct (a_attr a) as [attr|] eqn:Eattr; [|done].
  apply andb_prop_elim in Hcss as [Hp Hc].
  unfold kept in Hk. destruct (article_href (a_href a)) as [h|] eqn:Eh; [|done].
  simpl in Hk. injection Hk as <-. simpl.
  exists a, attr. repeat split; try done.
  - by apply Is_true_true.
  - apply negb_prop_elim in Hc. by destruct (contains ":" attr).
  - unfold article_href in Eh. destruct (a_href a); [|done].
    by destruct (_ && _); simplify_eq.
  - intros m Hm. by eapply article_href_clean.
Qed.

(** C4. With a cap of zero the harvester still returns a link: the length
    is compared with the cap only after an append, so the first anchor
    that passes the filter is returned whatever the cap. *)
Lemma extract_links_cap_zero_returns_one :
  (extract_links_from_article 0
     (scraper_on (article_page "A" [wikilink "B"; wikilink "C"]))).1 =
  [{| text := "B"; href := wiki "B" |}].
Proof. vm_compute. reflexivity. Qed.

(** ** save_to_csv *)




(** A run that does get to its saving step with nothing: the featured
    harvest finds no lead box.  The warning is logged and [to_csv] is not
    called. *)
Example empty_harvest_warns :
  option_map (λ final, (articles_data final, csv_calls final, files final, log final))
    (main only_A featured_from_A 0) =
  Some ([], [], [],
        [LogDriverInit; LogNavigated (wiki "A");
         LogNavigateFailed main_page_url "net::ERR_NAME_NOT_RESOLVED";
         LogFeaturedError; LogNoData; LogDriverClosed]).
Proof. vm_compute. reflexivity. Qed.


(** ** The categories cell *)








(** A category text with a pipe in it comes back as two. *)
Example piped_category_does_not_round_trip :
  ∃ r,
    (extract_article_data (site []) (scraper_on piped_page)).1 = Some r ∧
    r !! "categories" = Some (PStr "Pipes|Tubes") ∧
    split_on "|" "Pipes|Tubes" = ["Pipes"; "Tubes"].
Proof. eexists. repeat split; reflexivity. Qed.

(** ** Appending records *)

(** Every method leaves the records it found in place and appends complete
    ones; the lemmas follow the methods one by one. *)

Lemma appends_only_same (P : article → Prop) (s s' : scraper) :
  articles_data s' = articles_data s → appends_only P s s'.
Proof. intros E. exists []. by rewrite app_nil_r. Qed.

Lemma appends_only_trans (P : article → Prop) (s1 s2 s3 : scraper) :
  appends_only P s1 s2 → appends_only P s2 s3 → appends_only P s1 s3.
Proof.
  intros (n1 & E1 & H1) (n2 & E2 & H2). exists (n1 ++ n2).
  split; [by rewrite E2, E1, app_assoc | by apply Forall_app].
Qed.

Lemma navigate_to_url_articles (w : world) (url : option string) (s : scraper) :
  articles_data (navigate_to_url w url s).2 = articles_data s.
Proof. unfold navigate_to_url. by destruct (w_get _ _ _ _). Qed.

Lemma append_labelled_articles (w : world) (title : string) (url : pyval)
    (summary label : string) (s : scraper) :
  articles_data (append_labelled w title url summary label s) =
  articles_data s ++
  [article_dict (PStr title) url (PStr summary) (PStr label) (PStr "")
     (PStr (strftime_record (w_now w (tick s))))].
Proof. reflexivity. Qed.

Lemma append_labelled_appends (w : world) (title : string) (url : pyval)
    (summary label : string) (s : scraper) :
  appends_only complete_record s (append_labelled w title url summary label s).
Proof.
  eexists [_]. split; [apply append_labelled_articles|].
  constructor; [apply article_dict_complete | constructor].
Qed.

Lemma digest_appends (w : world) (label : string) (items : list item)
    (s : scraper) :
  appends_only complete_record s (digest w label items s).
Proof.
  unfold digest. generalize (take 5 items). intros l. revert s.
  induction l as [|it l IH]; intros s; simpl.
  - by apply appends_only_same.
  - eapply appends_only_trans; [|apply IH].
    unfold digest_item. destruct (it_link it).
    + apply append_labelled_appends.
    + by apply appends_only_same.
Qed.

Lemma digests_appends (w : world) (s : scraper) :
  appends_only complete_record s (digests w s).
Proof.
  unfold digests.
  eapply appends_only_trans; [|apply digest_appends].
  eapply appends_only_trans; apply digest_appends.
Qed.

Lemma archive_loop_appends (w : world) (count : Z) (links : list anchor)
    (s : scraper) :
  appends_only complete_record s (archive_loop w count links s).
Proof.
  revert s. induction links as [|l links IH]; intros s; simpl.
  - by apply appends_only_same.
  - case_bool_decide; [by apply appends_only_same|].
    eapply appends_only_trans; [apply append_labelled_appends | apply IH].
Qed.

Lemma archive_top_up_appends (w : world) (count : Z) (s : scraper) :
  appends_only complete_record s (archive_top_up w count s).
Proof.
  unfold archive_top_up. case_bool_decide; [|by apply appends_only_same].
  destruct (navigate_to_url w (Some archive_url) s) as [b s'] eqn:E.
  eapply appends_only_trans; [|apply archive_loop_appends].
  apply appends_only_same.
  by rewrite <- (navigate_to_url_articles w (Some archive_url) s), E.
Qed.

Lemma featured_zones_appends (w : world) (s0 s4 : scraper) :
  featured_zones w s0 = Some s4 → appends_only complete_record s0 s4.
Proof.
  unfold featured_zones. intros H.
  destruct (pg_tfa (driver s0)) as [box|]; [|done].
  destruct (tfa_link box); [|done]. destruct (tfa_p box); [|done].
  injection H as <-.
  eapply appends_only_trans; [apply append_labelled_appends | apply digests_appends].
Qed.

Lemma extract_featured_articles_appends (w : world) (count : Z) (s : scraper) :
  appends_only complete_record s (extract_featured_articles w count s).2.
Proof.
  unfold extract_featured_articles.
  destruct (navigate_to_url w (Some main_page_url) s) as [b s0] eqn:E.
  assert (H0 : appends_only complete_record s s0).
  { apply appends_only_same.
    by rewrite <- (navigate_to_url_articles w (Some main_page_url) s), E. }
  destruct (featured_zones w s0) as [s4|] eqn:Ez; simpl.
  - eapply appends_only_trans; [exact H0|].
    eapply appends_only_trans; [by apply (featured_zones_appends w)|].
    apply archive_top_up_appends.
  - exact H0.
Qed.

Lemma random_body_appends (w : world) (s : scraper) :
  appends_only complete_record s (random_body w s).2 ∧
  (length (articles_data (random_body w s).2) =
     length (articles_data s) + if (random_body w s).1 then 1 else 0)%nat.
Proof.
  unfold random_body.
  destruct (navigate_to_url w (Some random_url) s) as [b s1] eqn:E.
  pose proof (navigate_to_url_articles w (Some random_url) s) as Hn.
  rewrite E in Hn. simpl in Hn.
  destruct (extract_article_data_appends w s1) as [Ha Hl].
  destruct (extract_article_data w s1) as [r s2]. simpl in *.
  split.
  - eapply appends_only_trans; [by apply appends_only_same | exact Ha].
  - rewrite Hl, Hn. by case_bool_decide.
Qed.

Lemma random_loop_appends (w : world) (count : Z) (fuel : nat) (n : Z)
    (s : scraper) (n' : Z) (s' : scraper) :
  random_loop w count fuel n s = Some (n', s') →
  appends_only complete_record s s'.
Proof.
  revert n s. induction fuel as [|fuel IH]; intros n s; simpl;
    case_bool_decide; try done.
  - intros [= _ <-]. by apply appends_only_same.
  - destruct (random_body w s) as [ok s1] eqn:E. intros Hloop.
    eapply appends_only_trans; [|by eapply IH].
    pose proof (random_body_appends w s) as [Ha _]. by rewrite E in Ha.
  - intros [= _ <-]. by apply appends_only_same.
Qed.

(** ** The crawl loop *)

(** The harvest appends no record. *)
Lemma extract_links_articles (cap : Z) (s : scraper) :
  articles_data (extract_links_from_article cap s).2 = articles_data s.
Proof. unfold extract_links_from_article. by destruct (pg_anchors (driver s)). Qed.

(** The [for] over the links touches the queue only, and adds at most one
    entry per link. *)
Lemma enqueue_links_frame (links : list link) (d : Z) (c : crawl_state) :
  me (enqueue_links links d c) = me c ∧
  articles_crawled (enqueue_links links d c) = articles_crawled c ∧
  visited_urls (enqueue_links links d c) = visited_urls c ∧
  (length (queue (enqueue_links links d c)) ≤ length (queue c) + length links)%nat.
Proof.
  revert c. induction links as [|l links IH]; intros c; simpl; [by auto with lia|].
  destruct (IH (if bool_decide (href l ∈ visited_urls c) then c
                else queue_append (href l) (d + 1) c)) as (-> & -> & -> & Hlen).
  case_bool_decide; simpl in *; repeat split; try done; try lia.
  rewrite length_app in Hlen. simpl in Hlen. lia.
Qed.

(** One pass through the body: the records only grow, by at most what the
    counter grows by; a [break] means the budget is reached; otherwise the
    loop has come closer to its end. *)
Lemma crawl_body_step (w : world) (depth max_articles : Z) (url : string)
    (d : Z) (rest : list (string * Z)) (c : crawl_state) :
  ∃ c',
    (crawl_body w depth max_articles url d rest c = Next c' ∨
     crawl_body w depth max_articles url d rest c = Break c') ∧
    appends_only complete_record (me c) (me c') ∧
    Z.of_nat (length (articles_data (me c'))) -
      Z.of_nat (length (articles_data (me c))) ≤
      articles_crawled c' - articles_crawled c ∧
    articles_crawled c ≤ articles_crawled c' ≤ articles_crawled c + 1 ∧
    (crawl_body w depth max_articles url d rest c = Break c' →
       max_articles ≤ articles_crawled c') ∧
    (crawl_body w depth max_articles url d rest c = Next c' →
       articles_crawled c < max_articles →
       articles_crawled c' ≤ max_articles ∧
       (crawl_measure max_articles c' <
          S (length rest) + 10 * Z.to_nat (max_articles - articles_crawled c))%nat).
Proof.
  unfold crawl_body. case_bool_decide as Hvis.
  { eexists. split; [by left|]. simpl.
    split; [by apply appends_only_same|].
    repeat split; try lia; try done.
    unfold crawl_measure; simpl; lia. }
  destruct (navigate_to_url w (Some url) (me c)) as [b s1] eqn:En.
  pose proof (navigate_to_url_articles w (Some url) (me c)) as Hn.
  rewrite En in Hn; simpl in Hn.
  destruct (extract_article_data_appends w s1) as [Ha Hl].
  destruct (extract_article_data w s1) as [r s2]; simpl in Ha, Hl.
  assert (Happ : appends_only complete_record (me c) s2).
  { eapply appends_only_trans; [by apply appends_only_same | exact Ha]. }
  assert (Hlen : Z.of_nat (length (articles_data s2)) -
                 Z.of_nat (length (articles_data (me c))) ≤ 1).
  { rewrite Hl, Hn. case_bool_decide; lia. }
  clear Hl. case_bool_decide as Hmax.
  { eexists. split; [by right|]. simpl. repeat split; try done; lia. }
  case_bool_decide as Hdepth.
  - pose proof (extract_links_articles 10 s2) as Hla.
    pose proof (extract_links_at_most_cap 10 s2 ltac:(lia)) as Hlk.
    destruct (extract_links_from_article 10 s2) as [links s3]; simpl in Hla, Hlk.
    match goal with |- context [enqueue_links links d ?c0] =>
      destruct (enqueue_links_frame links d c0) as (Hme & Hcr & _ & Hq);
      exists (enqueue_links links d c0) end.
    simpl in Hme, Hcr, Hq.
    split; [by left|]. rewrite Hme, Hcr.
    split. { destruct Happ as (new & E & HP). exists new. by rewrite Hla. }
    rewrite Hla. repeat split; try done; try lia.
    unfold crawl_measure. rewrite Hcr. lia.
  - eexists. split; [by left|]. simpl. repeat split; try done; try lia.
    unfold crawl_measure; simpl; lia.
Qed.

(** Along the loop the records grow with the counter and the counter stays
    within the budget; the loop ends on an empty queue or on the budget. *)
Lemma crawl_loop_budget (w : world) (depth max_articles : Z) (fuel : nat)
    (c c' : crawl_state) :
  articles_crawled c ≤ max_articles →
  crawl_loop w depth max_articles fuel c = Some c' →
  appends_only complete_record (me c) (me c') ∧
  Z.of_nat (length (articles_data (me c'))) -
    Z.of_nat (length (articles_data (me c))) ≤
    articles_crawled c' - articles_crawled c ∧
  articles_crawled c ≤ articles_crawled c' ≤ max_articles ∧
  (queue c' = [] ∨ articles_crawled c' = max_articles).
Proof.
  revert c. induction fuel as [|fuel IH]; intros c Hle; simpl.
  - destruct (queue c) as [|[url d] rest] eqn:Eq.
    + intros [= <-]. split; [by apply appends_only_same|]. auto with lia.
    + case_bool_decide; [done|]. intros [= <-].
      split; [by apply appends_only_same|]. split; [lia|]. split; [lia|].
      right; lia.
  - destruct (queue c) as [|[url d] rest] eqn:Eq.
    + intros [= <-]. split; [by apply appends_only_same|]. auto with lia.
    + case_bool_decide as Hlt.
      2:{ intros [= <-]. split; [by apply appends_only_same|].
          split; [lia|]. split; [lia|]. right; lia. }
      destruct (crawl_body_step w depth max_articles url d rest c)
        as (c1 & Hc1 & Happ & Hlen & Hcr & Hbreak & Hnext).
      destruct Hc1 as [E|E]; rewrite E.
      * intros Hloop. destruct (Hnext E Hlt) as [Hle1 _].
        destruct (IH c1 Hle1 Hloop) as (Happ' & Hlen' & Hcr' & Hend).
        split; [by eapply appends_only_trans|].
        split; [lia|]. split; [lia|]. done.
      * intros [= <-]. specialize (Hbreak E).
        split; [done|]. split; [lia|]. split; [lia|]. right; lia.
Qed.

(** The loop ends: the measure of the state is fuel enough. *)
Lemma crawl_loop_terminates (w : world) (depth max_articles : Z)
    (fuel : nat) (c : crawl_state) :
  (crawl_measure max_articles c ≤ fuel)%nat →
  ∃ c', crawl_loop w depth max_articles fuel c = Some c'.
Proof.
  revert c. induction fuel as [|fuel IH]; intros c Hm; simpl.
  - destruct (queue c) as [|[url d] rest] eqn:Eq; [eauto|].
    unfold crawl_measure in Hm. rewrite Eq in Hm. simpl in Hm. lia.
  - destruct (queue c) as [|[url d] rest] eqn:Eq; [eauto|].
    case_bool_decide as Hlt; [|eauto].
    destruct (crawl_body_step w depth max_articles url d rest c)
      as (c1 & Hc1 & _ & _ & _ & _ & Hnext).
    destruct Hc1 as [E|E]; rewrite E; [|eauto].
    apply IH. destruct (Hnext E Hlt) as [_ Hdec].
    unfold crawl_measure in Hm. rewrite Eq in Hm. simpl in Hm. lia.
Qed.

(** At the budget the loop does not turn, whatever is queued. *)
Lemma crawl_loop_hard_stop (w : world) (depth max_articles : Z) (fuel : nat)
    (c : crawl_state) :
  max_articles ≤ articles_crawled c →
  crawl_loop w depth max_articles fuel c = Some c.
Proof.
  intros Hle. destruct fuel; simpl; destruct (queue c) as [|[url d] rest];
    try done; case_bool_decide; try done; lia.
Qed.

(** ** crawl_related_articles *)

(** The locals at the head of the loop, spelled out. *)
Lemma crawl_start_spec (w : world) (s : scraper) :
  crawl_start w s =
  {| queue := [(pg_url (driver s), 0)];
     visited_urls := {[pg_url (driver s)]};
     articles_crawled := 1;
     enqueued := [pg_url (driver s)];
     me := (extract_article_data w s).2 |}.
Proof.
  unfold crawl_start.
  pose proof (extract_article_data_frame w s) as (Hd & _).
  destruct (extract_article_data w s) as [r s1]; simpl in *. by rewrite Hd.
Qed.

(** C1. With a positive [max_articles] a crawl returns, and the records it
    has appended are at most [max_articles].  The same holds of the loop
    from any state within the budget: the counter covers every record
    appended, stays within the budget, and the loop ends on an empty
    queue or on the budget.  Once the counter has reached the budget the
    loop does not turn again, whatever is left in the queue. *)
Theorem crawl_never_exceeds_max_articles (w : world) (depth max_articles : Z)
    (s : scraper) :
  0 < max_articles →
  (∃ fuel r, crawl_related_articles w depth max_articles fuel s = Some r) ∧
  (∀ fuel b s',
     crawl_related_articles w depth max_articles fuel s = Some (b, s') →
     ∃ new, articles_data s' = articles_data s ++ new ∧
            Z.of_nat (length new) ≤ max_articles) ∧
  (∀ fuel c c',
     articles_crawled c ≤ max_articles →
     crawl_loop w depth max_articles fuel c = Some c' →
     ∃ new, articles_data (me c') = articles_data (me c) ++ new ∧
            articles_crawled c + Z.of_nat (length new) ≤ articles_crawled c' ∧
            articles_crawled c' ≤ max_articles ∧
            (queue c' = [] ∨ articles_crawled c' = max_articles)) ∧
  (∀ fuel c,
     max_articles ≤ articles_crawled c →
     crawl_loop w depth max_articles fuel c = Some c).
Proof.
  intros Hpos.
  assert (Hloop : ∀ fuel c c',
     articles_crawled c ≤ max_articles →
     crawl_loop w depth max_articles fuel c = Some c' →
     ∃ new, articles_data (me c') = articles_data (me c) ++ new ∧
            articles_crawled c + Z.of_nat (length new) ≤ articles_crawled c' ∧
            articles_crawled c' ≤ max_articles ∧
            (queue c' = [] ∨ articles_crawled c' = max_articles)).
  { intros fuel c c' Hle Hrun.
    destruct (crawl_loop_budget w depth max_articles fuel c c' Hle Hrun)
      as ((new & E & _) & Hlen & Hcr & Hend).
    exists new. split; [done|]. rewrite E, length_app in Hlen.
    split; [lia|]. split; [lia|done]. }
  split; [|split; [|split]].
  - unfold crawl_related_articles.
    destruct (negb _); [by exists 0%nat; eauto|].
    destruct (crawl_loop_terminates w depth max_articles
                (crawl_measure max_articles (crawl_start w s)) (crawl_start w s))
      as [c' Hc']; [lia|].
    eexists _, _. by rewrite Hc'.
  - intros fuel b s'. unfold crawl_related_articles.
    destruct (negb _).
    { intros [= _ <-]. exists []. simpl. rewrite app_nil_r. split; [done|lia]. }
    destruct (crawl_loop _ _ _ _ _) as [c'|] eqn:Hrun; [|done].
    intros [= _ <-]. simpl.
    rewrite crawl_start_spec in Hrun.
    apply Hloop in Hrun as (new & E & Hlen & Hmax & _); [|simpl; lia].
    simpl in E, Hlen.
    destruct (extract_article_data_appends w s) as [(new0 & E0 & _) Hl0].
    exists (new0 ++ new). rewrite E, E0, app_assoc. split; [done|].
    rewrite E0, length_app in Hl0. rewrite length_app.
    destruct (bool_decide _); lia.
  - exact Hloop.
  - intros fuel c. apply crawl_loop_hard_stop.
Qed.

(** A crawl from [A] on the small site, with a budget of five. *)
Lemma crawl_never_exceeds_max_articles_witness :
  0 < 5 ∧
  ∃ fuel r, crawl_related_articles three_pages 2 5 fuel (scraper_on page_A) = Some r.
Proof.
  split; [lia|].
  apply (crawl_never_exceeds_max_articles three_pages 2 5 (scraper_on page_A)).
  lia.
Defined.




(** The test before the append looks at [visited_urls], and the append
    marks nothing: from a state of the loop whose head entry is yet to be
    visited, an address that the page links twice goes on the queue
    twice. *)
Example enqueue_links_repeats :
  match crawl_body three_pages 2 5 (wiki "A") 0 []
          {| queue := []; visited_urls := ∅; articles_crawled := 0;
             enqueued := [wiki "A"];
             me := scraper_on (bare_page "about:blank") |} with
  | Next c => (queue c, enqueued c)
  | Break c => ([], [])
  end =
  ([(wiki "B", 1); (wiki "B", 1); (wiki "C", 1)],
   [wiki "A"; wiki "B"; wiki "B"; wiki "C"]).
Proof. vm_compute. reflexivity. Qed.

(** A load that fails does not end the turn: the entry is marked visited
    and counted, and the extraction runs on the document the browser is
    left with. *)
Lemma crawl_body_failed_load (w : world) (depth max_articles : Z)
    (url : string) (d : Z) (rest : list (string * Z)) (c : crawl_state)
    (err : string) (p : page) :
  url ∉ visited_urls c →
  url ≠ "" →
  w_get w (tick (me c)) url (driver (me c)) = LoadFailed err p →
  ∃ c',
    (crawl_body w depth max_articles url d rest c = Next c' ∨
     crawl_body w depth max_articles url d rest c = Break c') ∧
    articles_crawled c' = articles_crawled c + 1 ∧
    url ∈ visited_urls c' ∧
    length (articles_data (me c')) =
      (length (articles_data (me c)) +
       if bool_decide (is_Some (pg_firstHeading p)) then 1 else 0)%nat.
Proof.
  intros Hvis Hurl Hget. unfold crawl_body.
  rewrite bool_decide_eq_false_2 by done.
  unfold navigate_to_url.
  destruct (String.eqb url "") eqn:Eu; [by apply String.eqb_eq in Eu|].
  rewrite Hget.
  match goal with |- context [extract_article_data w ?s1] =>
    pose proof (extract_article_data_appends w s1) as [_ Hl];
    assert (Hh : is_Some (extract_article_data w s1).1 ↔
                 is_Some (pg_firstHeading p))
      by (unfold extract_article_data; simpl;
          destruct (pg_firstHeading p); simpl; split; intros [? ?]; eauto; done);
    destruct (extract_article_data w s1) as [r s2] end.
  simpl in Hl, Hh.
  assert (Hlen : length (articles_data s2) =
                 (length (articles_data (me c)) +
                  if bool_decide (is_Some (pg_firstHeading p)) then 1 else 0)%nat).
  { rewrite Hl. do 2 case_bool_decide; tauto. }
  clear Hl Hh. destruct (bool_decide (max_articles ≤ articles_crawled c + 1)).
  { eexists. split; [by right|]. simpl. split; [done|]. split; [by apply elem_of_union_l, elem_of_singleton|done]. }
  destruct (bool_decide (d < depth)).
  - pose proof (extract_links_articles 10 s2) as Hla.
    destruct (extract_links_from_article 10 s2) as [links s3]; simpl in Hla.
    match goal with |- context [enqueue_links links d ?c0] =>
      destruct (enqueue_links_frame links d c0) as (Hme & Hcr & Hv & _);
      exists (enqueue_links links d c0) end.
    simpl in Hme, Hcr, Hv. rewrite Hme, Hcr, Hv, Hla.
    split; [by left|]. split; [done|]. split; [by apply elem_of_union_l, elem_of_singleton|done].
  - eexists. split; [by left|]. simpl. split; [done|]. split; [by apply elem_of_union_l, elem_of_singleton|done].
Qed.


(** The loop only appends complete records. *)
Lemma crawl_loop_appends (w : world) (depth max_articles : Z) (fuel : nat)
    (c c' : crawl_state) :
  crawl_loop w depth max_articles fuel c = Some c' →
  appends_only complete_record (me c) (me c').
Proof.
  revert c. induction fuel as [|fuel IH]; intros c; simpl;
    destruct (queue c) as [|[url d] rest];
    try (intros [= <-]; by apply appends_only_same);
    case_bool_decide; try done;
    try (intros [= <-]; by apply appends_only_same).
  destruct (crawl_body_step w depth max_articles url d rest c)
    as (c1 & [E|E] & Happ & _); rewrite E.
  - intros Hrun. eapply appends_only_trans; [exact Happ | by apply IH].
  - by intros [= <-].
Qed.

(** C7, as the code has it.  Whatever a strategy appends to the result set
    is a dictionary with exactly the six keys, and its title is a
    string.  This holds of the extraction of one page, of the featured
    harvest with its archive top-up, of random sampling and of the
    crawl. *)
Theorem strategies_append_complete_records (w : world) (s : scraper) :
  appends_only complete_record s (extract_article_data w s).2 ∧
  (∀ count,
     appends_only complete_record s (extract_featured_articles w count s).2) ∧
  (∀ count fuel,
     match collect_random_articles w count fuel s with
     | Some (_, s') => appends_only complete_record s s'
     | None => True
     end) ∧
  (∀ depth max_articles fuel,
     match crawl_related_articles w depth max_articles fuel s with
     | Some (_, s') => appends_only complete_record s s'
     | None => True
     end).
Proof.
  split; [apply extract_article_data_appends|].
  split; [intros; apply extract_featured_articles_appends|].
  split.
  - intros count fuel. unfold collect_random_articles.
    destruct (random_loop w count fuel 0 s) as [[n s']|] eqn:E; [|done].
    eapply appends_only_trans; [by eapply random_loop_appends|].
    by apply appends_only_same.
  - intros depth max_articles fuel. unfold crawl_related_articles.
    destruct (negb _); [by apply appends_only_same|].
    destruct (crawl_loop _ _ _ _ _) as [c|] eqn:E; [|done].
    apply crawl_loop_appends in E. rewrite crawl_start_spec in E. simpl in E.
    eapply appends_only_trans; [apply extract_article_data_appends|].
    eapply appends_only_trans; [exact E|]. by apply appends_only_same.
Qed.

(** C7, as the claim has it: a run with [--crawl] from the main page,
    whose heading element is there and shows no text.  The title lookup
    succeeds and the record appended, and saved, has an empty title. *)
Lemma crawl_appends_empty_title :
  option_map
    (λ final,
       ((λ r : article, (r !! "title", r !! "url", has_title_and_url r)) <$>
          articles_data final,
        length (files final)))
    (main (site [hidden_heading_page]) crawl_only 1) =
  Some ([(Some (PStr ""), Some (PStr main_page_url), false)], 1%nat).
Proof. vm_compute. reflexivity. Qed.

(** ** extract_featured_articles *)

(** The archive loop fills the list up to [count], as far as the links
    go. *)
Lemma archive_loop_length (w : world) (count : Z) (links : list anchor)
    (s : scraper) :
  Z.of_nat (length (articles_data (archive_loop w count links s))) =
  Z.max (Z.of_nat (length (articles_data s)))
        (Z.min count (Z.of_nat (length (articles_data s) + length links))).
Proof.
  revert s. induction links as [|l links IH]; intros s; simpl; [lia|].
  case_bool_decide; [lia|].
  rewrite IH, append_labelled_articles, length_app. simpl. lia.
Qed.




(** A call with [count = 2] on a list of two records: the call collects
    the lead and one news item and appends no archive record.  With
    [count = 6] the same call goes to the archive and stops at six. *)
Example featured_after_another_strategy :
  (λ r : article, r !! "categories") <$>
    articles_data (extract_featured_articles featured_site 2 two_records).2 =
  [Some (PStr "Letters|Things"); Some (PStr "Letters|Things");
   Some (PStr "Featured"); Some (PStr "In the news")] ∧
  (λ r : article, r !! "categories") <$>
    articles_data (extract_featured_articles featured_site 6 two_records).2 =
  [Some (PStr "Letters|Things"); Some (PStr "Letters|Things");
   Some (PStr "Featured"); Some (PStr "In the news");
   Some (PStr "Featured archive"); Some (PStr "Featured archive")].
Proof. split; vm_compute; reflexivity. Qed.

(** ** collect_random_articles *)

(** Enough successes among the first [k] turns: the loop returns at
    [count]. *)
Lemma random_loop_reaches (w : world) (count : Z) (k : nat) (n : Z)
    (s : scraper) :
  n ≤ count →
  count ≤ n + Z.of_nat (successes w k s) →
  ∃ fuel s',
    random_loop w count fuel n s = Some (count, s') ∧
    length (articles_data s') =
      (length (articles_data s) + Z.to_nat (count - n))%nat.
Proof.
  revert n s. induction k as [|k IH]; intros n s Hle Hk; simpl in Hk.
  - exists 0%nat, s. simpl. rewrite bool_decide_eq_false_2 by lia.
    replace n with count by lia. split; [done|].
    rewrite Z.sub_diag. simpl. lia.
  - destruct (decide (n = count)) as [->|Hne].
    { exists 0%nat, s. simpl. rewrite bool_decide_eq_false_2 by lia.
      split; [done|]. rewrite Z.sub_diag. simpl. lia. }
    pose proof (random_body_appends w s) as [_ Hlen].
    destruct (random_body w s) as [ok s1] eqn:Eb. simpl in Hlen.
    destruct (IH (if ok then n + 1 else n) s1) as (fuel & s' & Hrun & Hl).
    { destruct ok; lia. }
    { destruct ok; lia. }
    exists (S fuel), s'. simpl. rewrite bool_decide_eq_true_2 by lia.
    rewrite Eb. split; [done|]. rewrite Hl, Hlen. destruct ok; lia.
Qed.

(** Never enough successes: the loop outlasts any fuel. *)
Lemma random_loop_starves (w : world) (count : Z) (fuel : nat) (n : Z)
    (s : scraper) :
  (∀ k, n + Z.of_nat (successes w k s) < count) →
  random_loop w count fuel n s = None.
Proof.
  revert n s. induction fuel as [|fuel IH]; intros n s Hk; simpl.
  - specialize (Hk 0%nat). simpl in Hk. by rewrite bool_decide_eq_true_2 by lia.
  - pose proof (Hk 0%nat) as H0. simpl in H0.
    rewrite bool_decide_eq_true_2 by lia.
    destruct (random_body w s) as [ok s1] eqn:Eb.
    apply IH. intros k. specialize (Hk (S k)). simpl in Hk. rewrite Eb in Hk.
    destruct ok; lia.
Qed.

(** C8. The loop of the random sampling ends exactly when [count]
    extractions have succeeded.  If among the turns of its body, run one
    after the other from the state of the call, some [k] first turns hold
    [count] successes, the call returns [True] with [count] records
    appended.  If no number of turns ever holds [count] successes, as
    when every extraction fails and [count] is positive, no amount of
    fuel makes the call return. *)
Theorem random_sampling_ends_on_count (w : world) (count : Z) (s : scraper) :
  ((∃ k, count ≤ Z.of_nat (successes w k s)) →
   ∃ fuel s',
     collect_random_articles w count fuel s = Some (true, s') ∧
     length (articles_data s') =
       (length (articles_data s) + Z.to_nat count)%nat) ∧
  ((∀ k, Z.of_nat (successes w k s) < count) →
   ∀ fuel, collect_random_articles w count fuel s = None).
Proof.
  split.
  - intros [k Hk]. unfold collect_random_articles.
    destruct (decide (0 ≤ count)) as [Hpos|Hneg].
    + destruct (random_loop_reaches w count k 0 s) as (fuel & s' & Hrun & Hl);
        [lia..|].
      exists fuel. eexists. rewrite Hrun. split; [done|].
      simpl. rewrite Hl. by rewrite Z.sub_0_r.
    + exists 0%nat. eexists. simpl. rewrite bool_decide_eq_false_2 by lia.
      split; [done|]. simpl. lia.
  - intros Hk fuel. unfold collect_random_articles.
    rewrite random_loop_starves; [done|]. intros k. specialize (Hk k). lia.
Qed.

(** On a site whose every page lacks a heading no turn succeeds. *)
Lemma successes_without_heading (p : page) (k : nat) (s : scraper) :
  pg_firstHeading p = None → successes (always p) k s = 0%nat.
Proof.
  intros Hp. revert s. induction k as [|k IH]; intros s; [done|].
  simpl. unfold random_body, navigate_to_url, extract_article_data. simpl.
  rewrite Hp. simpl. apply IH.
Qed.

(** Two records from a site where every page has a heading; no return
    from a site where none has. *)
Lemma random_sampling_ends_on_count_witness :
  (∃ fuel s',
     collect_random_articles (always page_A) 2 fuel (scraper_on page_A) = Some (true, s') ∧
     length (articles_data s') = 2%nat) ∧
  (∀ fuel,
     collect_random_articles (always (bare_page random_url)) 1 fuel
       (scraper_on page_A) = None).
Proof.
  split.
  - apply (random_sampling_ends_on_count (always page_A) 2 (scraper_on page_A)).
    exists 2%nat. vm_compute. discriminate.
  - apply (random_sampling_ends_on_count (always (bare_page random_url)) 1
             (scraper_on page_A)).
    intros k. rewrite successes_without_heading by reflexivity. lia.
Defined.

(** * Further properties *)

(** ** The crawl, as a whole *)

(** X1. A crawl call extracts the start page and nothing else.  On an
    article page, with fuel for one turn, it returns [True] in the state
    the extraction of the start page left, logging a count of one; no
    page is loaded and neither [depth] nor [max_articles] has a say.  Off
    an article page it returns [False] and only logs the warning. *)
Theorem crawl_extracts_start_page_only (w : world) (depth max_articles : Z)
    (fuel : nat) (s : scraper) :
  crawl_related_articles w depth max_articles (S fuel) s =
  Some (if String.prefix "https://en.wikipedia.org/wiki/" (pg_url (driver s))
        then (true, logging (LogCrawled 1 depth) (extract_article_data w s).2)
        else (false, logging LogNotArticle s)).
Proof.
  unfold crawl_related_articles.
  destruct (String.prefix _ _); simpl; [|done].
  rewrite crawl_start_spec. simpl. case_bool_decide; [|done].
  unfold crawl_body. simpl.
  rewrite bool_decide_eq_true_2 by (by apply elem_of_singleton).
  by destruct fuel.
Qed.

(** ** The harvest *)

(** X2. For a cap of at least one the harvester answers the first [cap]
    anchors, in document order, among those the selector matches and the
    denylist lets through, or the empty list when the scan fails; that is
    at most [cap] links, and a larger cap only adds links at the end. *)
Theorem harvester_first_cap_in_order (cap cap' : Z) (s : scraper) :
  1 ≤ cap → cap ≤ cap' →
  (extract_links_from_article cap s).1 =
    match pg_anchors (driver s) with
    | Some anchors =>
        take (Z.to_nat cap) (omap kept (filter css_article_link anchors))
    | None => []
    end ∧
  Z.of_nat (length (extract_links_from_article cap s).1) ≤ cap ∧
  (extract_links_from_article cap s).1 `prefix_of`
    (extract_links_from_article cap' s).1.
Proof.
  intros Hcap Hle. split; [by apply extract_links_first_cap|].
  split; [by apply extract_links_at_most_cap|].
  rewrite !extract_links_first_cap by lia.
  destruct (pg_anchors (driver s)) as [anchors|]; [|done].
  replace (Z.to_nat cap') with (Z.to_nat cap + Z.to_nat (cap' - cap))%nat by lia.
  rewrite <- take_take_drop. by eexists.
Qed.

(** On the page [A], with caps of two and three. *)
Lemma harvester_first_cap_in_order_witness :
  (extract_links_from_article 2 (scraper_on page_A)).1 `prefix_of`
  (extract_links_from_article 3 (scraper_on page_A)).1.
Proof.
  apply (harvester_first_cap_in_order 2 3 (scraper_on page_A)); lia.
Defined.

(** A link that passes the [if] of the loop has an address. *)
Lemma article_href_nonempty (v : pyval) (h : string) :
  article_href v = Some h → h ≠ "".
Proof.
  unfold article_href. destruct v as [h'|]; [|done].
  destruct (String.eqb h' "") eqn:E; simpl; [done|].
  destruct (_ && _); [|done]. intros [= <-].
  intros ->. by rewrite String.eqb_refl in E.
Qed.

(** X3. Whatever the cap, a link the harvester returns comes from an
    anchor of the content whose [href] attribute starts with [/wiki/] and
    has no colon; its address is the non-empty string [get_attribute]
    gave for that anchor and holds none of the six markers, and its text
    is the text of the anchor. *)
Theorem harvested_links_pass_the_filters (cap : Z) (s : scraper) (l : link) :
  l ∈ (extract_links_from_article cap s).1 →
  href l ≠ "" ∧
  ∃ anchors a attr,
    pg_anchors (driver s) = Some anchors ∧ a ∈ anchors ∧
    a_attr a = Some attr ∧ String.prefix "/wiki/" attr = true ∧
    contains ":" attr = false ∧
    a_href a = PStr (href l) ∧ text l = a_text a ∧
    ∀ m, m ∈ markers → contains m (href l) = false.
Proof.
  intros Hl. split; [|by apply (extract_links_filtered cap)].
  unfold extract_links_from_article in Hl.
  destruct (pg_anchors (driver s)) as [anchors|]; simpl in Hl;
    [|by apply elem_of_nil in Hl].
  assert (Hgen : ∀ elems acc, l ∈ harvest cap elems acc →
                 l ∈ acc ∨ href l ≠ "").
  { induction elems as [|b elems IH]; intros acc; simpl; [auto|].
    destruct (article_href (a_href b)) as [h|] eqn:Eb; [|apply IH].
    apply article_href_nonempty in Eb.
    case_bool_decide.
    - intros [?| ->%list_elem_of_singleton]%elem_of_app; auto.
    - intros [[?| ->%list_elem_of_singleton]%elem_of_app|?]%IH; auto. }
  apply Hgen in Hl as [?%elem_of_nil|?]; done.
Qed.

(** The first link the harvester returns for [A]. *)
Lemma harvested_links_pass_the_filters_witness :
  href {| text := "B"; href := wiki "B" |} ≠ "".
Proof.
  apply (harvested_links_pass_the_filters 10 (scraper_on page_A)
           {| text := "B"; href := wiki "B" |}).
  vm_compute. left.
Defined.

(** ** One turn of the crawl loop *)

(** The [for] over the links, in closed form. *)
Lemma enqueue_links_spec (links : list link) (d : Z) (c : crawl_state) :
  enqueue_links links d c =
  {| queue := queue c ++
       ((λ l, (href l, d + 1)) <$> filter (λ l, href l ∉ visited_urls c) links);
     visited_urls := visited_urls c;
     articles_crawled := articles_crawled c;
     enqueued := enqueued c ++
       (href <$> filter (λ l, href l ∉ visited_urls c) links);
     me := me c |}.
Proof.
  revert c. induction links as [|l links IH]; intros c; simpl.
  - destruct c; simpl. by rewrite !app_nil_r.
  - rewrite IH, filter_cons. case_bool_decide as Hvis; case_decide; try done.
    simpl. by rewrite <- !app_assoc.
Qed.

(** X4. The loop over the harvested links puts on the queue, in harvest
    order and at the popped depth plus one, exactly the links whose
    address is not in the visited set, a repeated address as often as it
    is repeated; it changes nothing else. *)
Theorem enqueue_links_appends_unvisited (links : list link) (d : Z)
    (c : crawl_state) :
  queue (enqueue_links links d c) =
    queue c ++
    ((λ l, (href l, d + 1)) <$> filter (λ l, href l ∉ visited_urls c) links) ∧
  visited_urls (enqueue_links links d c) = visited_urls c ∧
  articles_crawled (enqueue_links links d c) = articles_crawled c ∧
  me (enqueue_links links d c) = me c.
Proof. by rewrite enqueue_links_spec. Qed.

(** The extraction loads nothing. *)
Lemma extract_article_data_loaded (w : world) (s : scraper) :
  loaded (log (extract_article_data w s).2) = loaded (log s).
Proof.
  unfold extract_article_data.
  destruct (pg_firstHeading (driver s)); simpl;
    unfold loaded; rewrite omap_app; simpl; by rewrite app_nil_r.
Qed.

Lemma extract_links_loaded (cap : Z) (s : scraper) :
  loaded (log (extract_links_from_article cap s).2) = loaded (log s).
Proof.
  unfold extract_links_from_article.
  destruct (pg_anchors (driver s)); simpl; [done|].
  unfold loaded. rewrite omap_app. simpl. by rewrite app_nil_r.
Qed.

(** Every call of [navigate_to_url] shows in the log, with its target. *)
Lemma navigate_to_url_loaded (w : world) (url : string) (s : scraper) :
  url ≠ "" →
  loaded (log (navigate_to_url w (Some url) s).2) = loaded (log s) ++ [url].
Proof.
  intros Hne. unfold navigate_to_url.
  destruct (String.eqb url "") eqn:E; [by apply String.eqb_eq in E|].
  destruct (w_get _ _ _ _); simpl; unfold loaded; by rewrite omap_app.
Qed.

Lemma extract_links_nonempty (cap : Z) (s : scraper) :
  Forall (λ l, href l ≠ "") (extract_links_from_article cap s).1.
Proof.
  apply Forall_forall. intros l Hl.
  unfold extract_links_from_article in Hl.
  destruct (pg_anchors (driver s)) as [anchors|]; simpl in Hl;
    [|by apply elem_of_nil in Hl].
  assert (Hgen : ∀ elems acc, l ∈ harvest cap elems acc →
                 l ∈ acc ∨ href l ≠ "").
  { induction elems as [|b elems IH]; intros acc; simpl; [auto|].
    destruct (article_href (a_href b)) as [h|] eqn:Eb; [|apply IH].
    apply article_href_nonempty in Eb.
    case_bool_decide.
    - intros [?| ->%list_elem_of_singleton]%elem_of_app; auto.
    - intros [[?| ->%list_elem_of_singleton]%elem_of_app|?]%IH; auto. }
  apply Hgen in Hl as [?%elem_of_nil|?]; done.
Qed.

(** What one pass through the body does to the queue, the visited set and
    the loads. *)
Lemma crawl_body_turn (w : world) (depth max_articles : Z) (url : string)
    (d : Z) (rest : list (string * Z)) (c : crawl_state) :
  url ≠ "" →
  ∃ c' added,
    (crawl_body w depth max_articles url d rest c = Next c' ∨
     crawl_body w depth max_articles url d rest c = Break c') ∧
    queue c' = rest ++ added ∧
    Forall (λ e, snd e = d + 1 ∧ (d < depth) ∧ (fst e ∉ visited_urls c) ∧
                 fst e ≠ url ∧ fst e ≠ "") added ∧
    visited_urls c' =
      (if bool_decide (url ∈ visited_urls c) then visited_urls c
       else {[url]} ∪ visited_urls c) ∧
    loaded (log (me c')) =
      loaded (log (me c)) ++
      (if bool_decide (url ∈ visited_urls c) then [] else [url]).
Proof.
  intros Hne. unfold crawl_body. case_bool_decide as Hvis.
  { eexists _, []. split; [by left|]. simpl.
    rewrite !app_nil_r. by repeat split. }
  pose proof (navigate_to_url_loaded w url (me c) Hne) as Hnav.
  destruct (navigate_to_url w (Some url) (me c)) as [b s1]; simpl in Hnav.
  pose proof (extract_article_data_loaded w s1) as Hex.
  destruct (extract_article_data w s1) as [r s2]; simpl in Hex.
  destruct (bool_decide (max_articles ≤ articles_crawled c + 1)).
  { eexists _, []. split; [by right|]. simpl.
    rewrite app_nil_r, Hex, Hnav. by repeat split. }
  case_bool_decide as Hdepth.
  - pose proof (extract_links_loaded 10 s2) as Hll.
    pose proof (extract_links_nonempty 10 s2) as Hlne.
    destruct (extract_links_from_article 10 s2) as [links s3]; simpl in *.
    rewrite enqueue_links_spec. simpl.
    eexists _, _. split; [by left|]. simpl. split; [reflexivity|].
    split; [|by rewrite Hll, Hex, Hnav].
    apply Forall_forall. intros e (l & -> & [Hl Hin]%list_elem_of_filter)%list_elem_of_fmap.
    simpl. rewrite Forall_forall in Hlne.
    repeat split; try done; try (by apply Hlne).
    + intros ?. apply Hl. by apply elem_of_union_r.
    + intros E. apply Hl. apply elem_of_union_l. by apply elem_of_singleton.
  - eexists _, []. split; [by left|]. simpl.
    rewrite app_nil_r, Hex, Hnav. by repeat split.
Qed.

(** X5. One pass through the body of the loop keeps the entries that were
    queued, in their order, ahead of what it adds.  What it adds is at
    the depth of the popped entry plus one, only when that entry is
    below [depth], and is neither the popped address nor one visited
    before; the popped address is in the visited set afterwards. *)
Theorem crawl_turn_is_first_in_first_out (w : world) (depth max_articles : Z)
    (url : string) (d : Z) (rest : list (string * Z)) (c : crawl_state) :
  url ≠ "" →
  ∃ c' added,
    (crawl_body w depth max_articles url d rest c = Next c' ∨
     crawl_body w depth max_articles url d rest c = Break c') ∧
    queue c' = rest ++ added ∧
    Forall (λ e, snd e = d + 1 ∧ (d < depth) ∧ (fst e ∉ visited_urls c) ∧
                 fst e ≠ url)
      added ∧
    url ∈ visited_urls c' ∧
    visited_urls c ⊆ visited_urls c'.
Proof.
  intros Hne.
  destruct (crawl_body_turn w depth max_articles url d rest c Hne)
    as (c' & added & Hc' & Hq & Hadd & Hv & _).
  exists c', added. split; [done|]. split; [done|]. split.
  - eapply Forall_impl; [exact Hadd|]. by intros e (?&?&?&?&?).
  - rewrite Hv. case_bool_decide; set_solver.
Qed.

(** A turn on the entry for [B], on the small site. *)
Lemma crawl_turn_is_first_in_first_out_witness :
  ∃ c' added,
    (crawl_body three_pages 2 5 (wiki "B") 0 [] (at_entry_B three_pages) = Next c' ∨
     crawl_body three_pages 2 5 (wiki "B") 0 [] (at_entry_B three_pages) = Break c') ∧
    queue c' = [] ++ added.
Proof.
  destruct (crawl_turn_is_first_in_first_out three_pages 2 5 (wiki "B") 0 []
              (at_entry_B three_pages)) as (c' & added & H1 & H2 & _).
  - discriminate.
  - by exists c', added.
Defined.

(** ** The crawl loop, from any state *)

(** X6. The loop never queues an entry beyond [depth]: when every queued
    entry has an address and a depth of at most [depth], so has every
    entry still queued when the loop ends. *)
Theorem crawl_loop_keeps_depth_bound (w : world) (depth max_articles : Z)
    (fuel : nat) (c c' : crawl_state) :
  Forall (λ e, fst e ≠ "" ∧ snd e ≤ depth) (queue c) →
  crawl_loop w depth max_articles fuel c = Some c' →
  Forall (λ e, fst e ≠ "" ∧ snd e ≤ depth) (queue c').
Proof.
  revert c. induction fuel as [|fuel IH]; intros c Hq; simpl;
    destruct (queue c) as [|[url d] rest] eqn:Eq;
    try (intros [= <-]; by rewrite Eq);
    case_bool_decide; try done; try (intros [= <-]; by rewrite Eq).
  apply Forall_cons in Hq as [[Hne Hd] Hrest]. simpl in Hne, Hd.
  destruct (crawl_body_turn w depth max_articles url d rest c Hne)
    as (c1 & added & Hc1 & Hq1 & Hadd & _).
  assert (Hb : Forall (λ e, fst e ≠ "" ∧ snd e ≤ depth) (queue c1)).
  { rewrite Hq1. apply Forall_app. split; [done|].
    eapply Forall_impl; [exact Hadd|]. intros e (?&?&?&?&?). split; [done|lia]. }
  destruct Hc1 as [E|E]; rewrite E.
  - by apply IH.
  - by intros [= <-].
Qed.

(** The loop on the small site, from the entry for [B]. *)
Lemma crawl_loop_keeps_depth_bound_witness :
  ∃ c',
    crawl_loop three_pages 2 5 4 (at_entry_B three_pages) = Some c' ∧
    Forall (λ e, fst e ≠ "" ∧ snd e ≤ 2) (queue c').
Proof.
  pose proof (crawl_loop_keeps_depth_bound three_pages 2 5 4
                (at_entry_B three_pages)) as Hrun.
  destruct (crawl_loop three_pages 2 5 4 (at_entry_B three_pages))
    as [c'|] eqn:E.
  - exists c'. split; [reflexivity|]. apply Hrun; [|reflexivity].
    repeat constructor. discriminate. simpl. lia.
  - vm_compute in E. discriminate E.
Defined.

(** X7. From any state of the loop whose queued addresses are non-empty,
    the loop loads no address twice and none that was already visited;
    the visited set only grows, by exactly the addresses loaded. *)
Theorem crawl_loop_loads_each_address_once (w : world) (depth max_articles : Z)
    (fuel : nat) (c c' : crawl_state) :
  Forall (λ e, fst e ≠ "") (queue c) →
  crawl_loop w depth max_articles fuel c = Some c' →
  ∃ new,
    loaded (log (me c')) = loaded (log (me c)) ++ new ∧
    NoDup new ∧
    (∀ u, u ∈ new → u ∉ visited_urls c) ∧
    visited_urls c' = visited_urls c ∪ list_to_set new.
Proof.
  revert c. induction fuel as [|fuel IH]; intros c Hq; simpl;
    destruct (queue c) as [|[url d] rest] eqn:Eq;
    try (intros [= <-]; exists []; rewrite app_nil_r;
         repeat split; [constructor | by intros ? ?%elem_of_nil | set_solver]);
    case_bool_decide; try done;
    try (intros [= <-]; exists []; rewrite app_nil_r;
         repeat split; [constructor | by intros ? ?%elem_of_nil | set_solver]).
  apply Forall_cons in Hq as [Hne Hrest]. simpl in Hne.
  destruct (crawl_body_turn w depth max_articles url d rest c Hne)
    as (c1 & added & Hc1 & Hq1 & Hadd & Hv1 & Hl1).
  assert (Hstep : ∃ new1,
    loaded (log (me c1)) = loaded (log (me c)) ++ new1 ∧ NoDup new1 ∧
    (∀ u, u ∈ new1 → u ∉ visited_urls c) ∧
    visited_urls c1 = visited_urls c ∪ list_to_set new1).
  { case_bool_decide as Hvis.
    - exists []. rewrite Hl1, Hv1. repeat split;
        [constructor | by intros ? ?%elem_of_nil | set_solver].
    - exists [url]. rewrite Hl1, Hv1. repeat split.
      + apply NoDup_singleton.
      + by intros u ->%list_elem_of_singleton.
      + set_solver. }
  destruct Hstep as (new1 & Hlog1 & Hnd1 & Hfresh1 & Hvis1).
  destruct Hc1 as [E|E]; rewrite E.
  - intros Hrun. destruct (IH c1) as (new2 & Hlog2 & Hnd2 & Hfresh2 & Hvis2);
      [|done|].
    { rewrite Hq1. apply Forall_app. split; [done|].
      eapply Forall_impl; [exact Hadd|]. by intros e (?&?&?&?&?). }
    exists (new1 ++ new2). rewrite Hlog2, Hlog1, Hvis2, Hvis1.
    split; [by rewrite app_assoc|]. split; [|split].
    + apply NoDup_app. split; [done|]. split; [|done].
      intros u Hu1 Hu2. apply (Hfresh2 u Hu2). rewrite Hvis1.
      apply elem_of_union_r. by apply elem_of_list_to_set.
    + intros u [Hu|Hu]%elem_of_app; [by apply Hfresh1|].
      intros Hin. apply (Hfresh2 u Hu). rewrite Hvis1. by apply elem_of_union_l.
    + rewrite list_to_set_app_L. set_solver.
  - intros [= <-]. by exists new1.
Qed.

(** The loop on the small site, from the entry for [B]: [B] and [C] are
    loaded, once each. *)
Lemma crawl_loop_loads_each_address_once_witness :
  ∃ c' new,
    crawl_loop three_pages 2 5 4 (at_entry_B three_pages) = Some c' ∧
    loaded (log (me c')) = loaded (log (me (at_entry_B three_pages))) ++ new ∧
    NoDup new.
Proof.
  pose proof (crawl_loop_loads_each_address_once three_pages 2 5 4
                (at_entry_B three_pages)) as Hrun.
  destruct (crawl_loop three_pages 2 5 4 (at_entry_B three_pages))
    as [c'|] eqn:E.
  - destruct (Hrun c') as (new & H1 & H2 & _); [|reflexivity|].
    + repeat constructor. discriminate.
    + by exists c', new.
  - vm_compute in E. discriminate E.
Defined.

(** One more unit of fuel changes nothing for a loop that has ended. *)
Lemma crawl_loop_more_fuel (w : world) (depth max_articles : Z) (fuel : nat)
    (c c' : crawl_state) :
  crawl_loop w depth max_articles fuel c = Some c' →
  crawl_loop w depth max_articles (S fuel) c = Some c'.
Proof.
  revert c. induction fuel as [|fuel IH]; intros c.
  - simpl. destruct (queue c) as [|[url d] rest]; [done|]. by case_bool_decide.
  - intros Hrun. simpl in Hrun. 
    change (crawl_loop w depth max_articles (S (S fuel)) c) with
      (match queue c with
       | [] => Some c
       | (current_url, url_depth) :: rest =>
           if bool_decide (articles_crawled c < max_articles) then
             match crawl_body w depth max_articles current_url url_depth rest c with
             | Next c1 => crawl_loop w depth max_articles (S fuel) c1
             | Break c1 => Some c1
             end
           else Some c
       end).
    destruct (queue c) as [|[url d] rest]; [done|].
    case_bool_decide; [|done].
    destruct (crawl_body _ _ _ _ _ _ _); [by apply IH|done].
Qed.

(** X8. From any state the loop ends within as many turns as there are
    entries queued plus ten for each record the budget still allows, and
    the state it ends in is the same for any larger number of turns. *)
Theorem crawl_loop_ends_within_measure (w : world) (depth max_articles : Z)
    (c : crawl_state) :
  ∃ c',
    crawl_loop w depth max_articles (crawl_measure max_articles c) c = Some c' ∧
    ∀ fuel,
      (crawl_measure max_articles c ≤ fuel)%nat →
      crawl_loop w depth max_articles fuel c = Some c'.
Proof.
  destruct (crawl_loop_terminates w depth max_articles
              (crawl_measure max_articles c) c) as [c' Hc']; [lia|].
  exists c'. split; [done|].
  intros fuel Hle. induction Hle as [|fuel Hle IH]; [done|].
  by apply crawl_loop_more_fuel.
Qed.

(** ** The featured harvest, record by record *)

Lemma grows_by_same (s s' : scraper) :
  articles_data s' = articles_data s → grows_by [] s s'.
Proof. intros E. exists []. by rewrite app_nil_r. Qed.

Lemma grows_by_app (l1 l2 : list string) (s1 s2 s3 : scraper) :
  grows_by l1 s1 s2 → grows_by l2 s2 s3 → grows_by (l1 ++ l2) s1 s3.
Proof.
  intros (n1 & E1 & L1 & I1) (n2 & E2 & L2 & I2). exists (n1 ++ n2).
  split; [by rewrite E2, E1, app_assoc|]. split; [|by apply Forall_app].
  unfold labels_of in *. by rewrite !fmap_app, L1, L2.
Qed.

Lemma append_labelled_grows (w : world) (title : string) (url : pyval)
    (summary label : string) (s : scraper) :
  grows_by [label] s (append_labelled w title url summary label s).
Proof.
  eexists [_]. split; [apply append_labelled_articles|].
  split; [reflexivity|]. by constructor.
Qed.

(** A digest appends one record for each of its first five items that has
    a link. *)
Lemma digest_grows (w : world) (label : string) (items : list item)
    (s : scraper) :
  ∃ a, (a ≤ 5)%nat ∧ grows_by (replicate a label) s (digest w label items s).
Proof.
  unfold digest.
  assert (Hgen : ∀ l s0, ∃ a, (a ≤ length l)%nat ∧
    grows_by (replicate a label) s0
      (foldl (λ s' it, digest_item w label it s') s0 l)).
  { induction l as [|it l IH]; intros s0; simpl.
    - exists 0%nat. split; [lia|]. by apply grows_by_same.
    - destruct (IH (digest_item w label it s0)) as (a & Ha & Hg).
      unfold digest_item in *. destruct (it_link it) as [lk|].
      + exists (S a). split; [lia|].
        change (replicate (S a) label) with ([label] ++ replicate a label).
        eapply grows_by_app; [apply append_labelled_grows | exact Hg].
      + exists a. split; [lia|exact Hg]. }
  destruct (Hgen (take 5 items) s) as (a & Ha & Hg).
  exists a. split; [|done]. rewrite length_take in Ha. lia.
Qed.

Lemma archive_loop_grows (w : world) (count : Z) (links : list anchor)
    (s : scraper) :
  ∃ d, (d ≤ length links)%nat ∧
       grows_by (replicate d "Featured archive") s (archive_loop w count links s).
Proof.
  revert s. induction links as [|l links IH]; intros s; simpl.
  - exists 0%nat. split; [lia|]. by apply grows_by_same.
  - case_bool_decide.
    + exists 0%nat. split; [lia|]. by apply grows_by_same.
    + destruct (IH (append_labelled w (a_text l) (a_href l)
                      ("Featured article archive: " +:+ a_text l)
                      "Featured archive" s)) as (d & Hd & Hg).
      exists (S d). split; [lia|].
      change (replicate (S d) "Featured archive")
        with (["Featured archive"] ++ replicate d "Featured archive").
      eapply grows_by_app; [apply append_labelled_grows | exact Hg].
Qed.

Lemma archive_top_up_grows (w : world) (count : Z) (s : scraper) :
  ∃ d, (d ≤ 10)%nat ∧
       grows_by (replicate d "Featured archive") s (archive_top_up w count s).
Proof.
  unfold archive_top_up. case_bool_decide.
  - pose proof (navigate_to_url_articles w (Some archive_url) s) as Hn.
    destruct (navigate_to_url w (Some archive_url) s) as [b s']; simpl in Hn.
    destruct (archive_loop_grows w count (take 10 (pg_list_links (driver s'))) s')
      as (d & Hd & new & E & L & I).
    exists d. split; [rewrite length_take in Hd; lia|].
    exists new. by rewrite E, Hn.
  - exists 0%nat. split; [lia|]. by apply grows_by_same.
Qed.

(** X9. A featured harvest that returns [True] has appended, in this
    order, one record labelled "Featured", at most five labelled "In the
    news", at most five "Did you know", at most five "On this day" and
    at most ten "Featured archive", all with an empty [image_url]; one
    that returns [False] has appended nothing. *)
Theorem featured_harvest_shape (w : world) (count : Z) (s : scraper) :
  if (extract_featured_articles w count s).1 then
    ∃ a b c d,
      (a ≤ 5 ∧ b ≤ 5 ∧ c ≤ 5 ∧ d ≤ 10)%nat ∧
      grows_by
        ("Featured" :: replicate a "In the news" ++
         replicate b "Did you know" ++ replicate c "On this day" ++
         replicate d "Featured archive")
        s (extract_featured_articles w count s).2
  else
    articles_data (extract_featured_articles w count s).2 = articles_data s.
Proof.
  unfold extract_featured_articles.
  pose proof (navigate_to_url_articles w (Some main_page_url) s) as Hn.
  destruct (navigate_to_url w (Some main_page_url) s) as [b0 s0]; simpl in Hn.
  unfold featured_zones.
  destruct (pg_tfa (driver s0)) as [box|]; [|done].
  destruct (tfa_link box) as [lk|]; [|done].
  destruct (tfa_p box) as [summary|]; [|done]. simpl.
  set (s1 := append_labelled w (a_text lk) (a_href lk) summary "Featured" s0).
  unfold digests.
  destruct (digest_grows w "In the news" (pg_itn (driver s1)) s1)
    as (a & Ha & Hga).
  set (s2 := digest w "In the news" (pg_itn (driver s1)) s1) in *.
  destruct (digest_grows w "Did you know" (pg_dyk (driver s2)) s2)
    as (b & Hb & Hgb).
  set (s3 := digest w "Did you know" (pg_dyk (driver s2)) s2) in *.
  destruct (digest_grows w "On this day" (pg_otd (driver s3)) s3)
    as (c & Hc & Hgc).
  set (s4 := digest w "On this day" (pg_otd (driver s3)) s3) in *.
  destruct (archive_top_up_grows w count s4) as (d & Hd & Hgd).
  exists a, b, c, d. split; [done|].
  assert (H1 : grows_by ["Featured"] s s1).
  { destruct (append_labelled_grows w (a_text lk) (a_href lk) summary
                "Featured" s0) as (new & E & L & I).
    exists new. split; [unfold s1; by rewrite E, Hn|done]. }
  pose proof (grows_by_app _ _ _ _ _ H1
    (grows_by_app _ _ _ _ _ Hga
       (grows_by_app _ _ _ _ _ Hgb (grows_by_app _ _ _ _ _ Hgc Hgd)))) as Hall.
  destruct Hall as (new & E & L & I). by exists new.
Qed.

(** ** What the strategies leave alone *)

(** No strategy writes a file or a row, or changes the settings: the
    lemmas follow the methods one by one. *)

Lemma same_sinks_refl (s : scraper) : same_sinks s s.
Proof. by repeat split. Qed.

Lemma same_sinks_trans (s1 s2 s3 : scraper) :
  same_sinks s1 s2 → same_sinks s2 s3 → same_sinks s1 s3.
Proof.
  intros (A1 & B1 & C1 & D1) (A2 & B2 & C2 & D2).
  repeat split; congruence.
Qed.

Lemma navigate_to_url_sinks (w : world) (url : option string) (s : scraper) :
  same_sinks s (navigate_to_url w url s).2.
Proof. unfold navigate_to_url. by destruct (w_get _ _ _ _). Qed.

Lemma extract_article_data_sinks (w : world) (s : scraper) :
  same_sinks s (extract_article_data w s).2.
Proof. unfold extract_article_data. by destruct (pg_firstHeading (driver s)). Qed.

Lemma extract_links_sinks (cap : Z) (s : scraper) :
  same_sinks s (extract_links_from_article cap s).2.
Proof. unfold extract_links_from_article. by destruct (pg_anchors (driver s)). Qed.

Lemma digest_sinks (w : world) (label : string) (items : list item)
    (s : scraper) :
  same_sinks s (digest w label items s).
Proof.
  unfold digest. generalize (take 5 items). intros l. revert s.
  induction l as [|it l IH]; intros s; simpl; [apply same_sinks_refl|].
  eapply same_sinks_trans; [|apply IH].
  unfold digest_item. by destruct (it_link it).
Qed.

Lemma archive_loop_sinks (w : world) (count : Z) (links : list anchor)
    (s : scraper) :
  same_sinks s (archive_loop w count links s).
Proof.
  revert s. induction links as [|l links IH]; intros s; simpl;
    [apply same_sinks_refl|].
  case_bool_decide; [apply same_sinks_refl|].
  eapply same_sinks_trans; [|apply IH]. done.
Qed.

Lemma digests_sinks (w : world) (s : scraper) : same_sinks s (digests w s).
Proof.
  unfold digests.
  eapply same_sinks_trans; [|apply digest_sinks].
  eapply same_sinks_trans; apply digest_sinks.
Qed.

Lemma archive_top_up_sinks (w : world) (count : Z) (s : scraper) :
  same_sinks s (archive_top_up w count s).
Proof.
  unfold archive_top_up. case_bool_decide; [|apply same_sinks_refl].
  pose proof (navigate_to_url_sinks w (Some archive_url) s) as Ha.
  destruct (navigate_to_url w (Some archive_url) s) as [b1 s']; simpl in Ha.
  eapply same_sinks_trans; [exact Ha | apply archive_loop_sinks].
Qed.

Lemma extract_featured_articles_sinks (w : world) (count : Z) (s : scraper) :
  same_sinks s (extract_featured_articles w count s).2.
Proof.
  unfold extract_featured_articles.
  pose proof (navigate_to_url_sinks w (Some main_page_url) s) as Hn.
  destruct (navigate_to_url w (Some main_page_url) s) as [b0 s0]; simpl in Hn.
  unfold featured_zones.
  destruct (pg_tfa (driver s0)) as [box|]; [|done].
  destruct (tfa_link box) as [lk|]; [|done].
  destruct (tfa_p box) as [summary|]; [|done]. simpl.
  eapply same_sinks_trans; [exact Hn|].
  eapply same_sinks_trans; [|apply archive_top_up_sinks].
  eapply same_sinks_trans; [|apply digests_sinks]. done.
Qed.

Lemma random_loop_sinks (w : world) (count : Z) (fuel : nat) (n : Z)
    (s : scraper) (n' : Z) (s' : scraper) :
  random_loop w count fuel n s = Some (n', s') → same_sinks s s'.
Proof.
  revert n s. induction fuel as [|fuel IH]; intros n s; simpl;
    case_bool_decide; try done; try (intros [= _ <-]; apply same_sinks_refl).
  unfold random_body.
  pose proof (navigate_to_url_sinks w (Some random_url) s) as Hn.
  destruct (navigate_to_url w (Some random_url) s) as [b s1]; simpl in Hn.
  pose proof (extract_article_data_sinks w s1) as Hx.
  destruct (extract_article_data w s1) as [r s2]; simpl in Hx.
  intros Hrun. eapply same_sinks_trans; [exact Hn|].
  eapply same_sinks_trans; [exact Hx | by eapply IH].
Qed.

Lemma collect_random_articles_sinks (w : world) (count : Z) (fuel : nat)
    (s : scraper) (b : bool) (s' : scraper) :
  collect_random_articles w count fuel s = Some (b, s') → same_sinks s s'.
Proof.
  unfold collect_random_articles.
  destruct (random_loop w count fuel 0 s) as [[n s1]|] eqn:E; [|done].
  intros [= _ <-]. apply random_loop_sinks in E.
  eapply same_sinks_trans; [exact E|done].
Qed.

Lemma crawl_loop_sinks (w : world) (depth max_articles : Z) (fuel : nat)
    (c c' : crawl_state) :
  crawl_loop w depth max_articles fuel c = Some c' →
  same_sinks (me c) (me c').
Proof.
  revert c. induction fuel as [|fuel IH]; intros c; simpl;
    destruct (queue c) as [|[url d] rest];
    try (intros [= <-]; apply same_sinks_refl);
    case_bool_decide; try done; try (intros [= <-]; apply same_sinks_refl).
  assert (Hbody : ∀ c1,
    crawl_body w depth max_articles url d rest c = Next c1 ∨
    crawl_body w depth max_articles url d rest c = Break c1 →
    same_sinks (me c) (me c1)).
  { intros c1. unfold crawl_body. case_bool_decide.
    { intros [[= <-]|?]; [apply same_sinks_refl|done]. }
    pose proof (navigate_to_url_sinks w (Some url) (me c)) as Hn.
    destruct (navigate_to_url w (Some url) (me c)) as [b s1]; simpl in Hn.
    pose proof (extract_article_data_sinks w s1) as Hx.
    destruct (extract_article_data w s1) as [r s2]; simpl in Hx.
    assert (H2 : same_sinks (me c) s2) by (by eapply same_sinks_trans).
    case_bool_decide; [by intros [?|[= <-]]|].
    case_bool_decide; [|by intros [[= <-]|?]].
    pose proof (extract_links_sinks 10 s2) as Hl.
    destruct (extract_links_from_article 10 s2) as [links s3]; simpl in Hl.
    rewrite enqueue_links_spec.
    intros [[= <-]|?]; [|done]. simpl. by eapply same_sinks_trans. }
  destruct (crawl_body w depth max_articles url d rest c) as [c1|c1] eqn:E.
  - intros Hrun. eapply same_sinks_trans; [apply Hbody; by left | by apply IH].
  - intros [= <-]. apply Hbody. by right.
Qed.

Lemma crawl_related_articles_sinks (w : world) (depth max_articles : Z)
    (fuel : nat) (s : scraper) (b : bool) (s' : scraper) :
  crawl_related_articles w depth max_articles fuel s = Some (b, s') →
  same_sinks s s'.
Proof.
  unfold crawl_related_articles. destruct (negb _); [by intros [= _ <-]|].
  destruct (crawl_loop _ _ _ _ _) as [c|] eqn:E; [|done].
  intros [= _ <-]. apply crawl_loop_sinks in E.
  rewrite crawl_start_spec in E. simpl in E.
  eapply same_sinks_trans; [apply extract_article_data_sinks|].
  eapply same_sinks_trans; [exact E|done].
Qed.

Lemma search_wikipedia_frame (w : world) (term : option string) (s : scraper) :
  same_sinks s (search_wikipedia w term s).2 ∧
  articles_data (search_wikipedia w term s).2 = articles_data s.
Proof.
  unfold search_wikipedia.
  destruct (if given term then term else search_term s) as [t|]; [|done].
  destruct (String.eqb t ""); [done|].
  pose proof (navigate_to_url_sinks w None s) as Hn.
  pose proof (navigate_to_url_articles w None s) as Ha.
  destruct (contains "wikipedia.org" (pg_url (driver s)));
    destruct (pg_searchInput _ && pg_searchButton _); simpl; try done;
    destruct Hn as (?&?&?&?); by repeat split.
Qed.

(** The first load and the strategy write nothing; when the function
    returns from there, nothing was collected either. *)
Lemma acquire_frame (w : world) (a : args) (fuel : nat) (s : scraper)
    (b : bool) (s' : scraper) :
  acquire w a fuel s = Some (b, s') →
  same_sinks s s' ∧ (b = false → articles_data s' = articles_data s).
Proof.
  unfold acquire.
  pose proof (navigate_to_url_sinks w None s) as Hn.
  pose proof (navigate_to_url_articles w None s) as Ha.
  destruct (navigate_to_url w None s) as [loaded s1]; simpl in Hn, Ha.
  destruct loaded; simpl; [|by intros [= <- <-]].
  destruct (given (arg_search a)).
  { pose proof (search_wikipedia_frame w None s1) as [Hs Hsa].
    destruct (search_wikipedia w None s1) as [found s2]; simpl in Hs, Hsa.
    destruct found; simpl.
    - destruct (crawl_related_articles _ _ _ _ _) as [[b' s3]|] eqn:E; [|done].
      intros [= <- <-]. split; [|done].
      apply crawl_related_articles_sinks in E.
      eapply same_sinks_trans; [exact Hn|]. by eapply same_sinks_trans.
    - intros [= <- <-]. split; [by eapply same_sinks_trans | congruence]. }
  destruct (arg_featured a).
  { intros [= <- <-]. split; [|done].
    eapply same_sinks_trans; [exact Hn | apply extract_featured_articles_sinks]. }
  destruct (arg_random a).
  { destruct (collect_random_articles _ _ _ _) as [[b' s2]|] eqn:E; [|done].
    intros [= <- <-]. split; [|done].
    apply collect_random_articles_sinks in E. by eapply same_sinks_trans. }
  destruct (arg_crawl a).
  { destruct (crawl_related_articles _ _ _ _ _) as [[b' s2]|] eqn:E; [|done].
    intros [= <- <-]. split; [|done].
    apply crawl_related_articles_sinks in E. by eapply same_sinks_trans. }
  pose proof (extract_featured_articles_sinks w 10 s1) as Hf.
  destruct (extract_featured_articles w 10 s1) as [b' s2]; simpl in Hf.
  case_bool_decide.
  - destruct (collect_random_articles _ _ _ _) as [[b'' s3]|] eqn:E; [|done].
    intros [= <- <-]. split; [|done].
    apply collect_random_articles_sinks in E.
    eapply same_sinks_trans; [exact Hn|]. by eapply same_sinks_trans.
  - intros [= <- <-]. split; [|done]. by eapply same_sinks_trans.
Qed.

(** ** A whole run *)

(** [close] only logs. *)
Lemma close_frame (s : scraper) :
  articles_data (close s) = articles_data s ∧ csv_calls (close s) = csv_calls s ∧
  files (close s) = files s ∧ db_rows (close s) = db_rows s.
Proof. unfold close. by destruct (db_store s). Qed.

(** [save_to_database] appends the records to the table when the store is
    on, and touches nothing else but the log. *)
Lemma save_to_database_frame (s : scraper) :
  articles_data (save_to_database s).2 = articles_data s ∧
  csv_calls (save_to_database s).2 = csv_calls s ∧
  files (save_to_database s).2 = files s ∧
  db_store (save_to_database s).2 = db_store s ∧
  db_rows (save_to_database s).2 =
    (if db_store s then db_rows s ++ articles_data s else db_rows s).
Proof.
  unfold save_to_database.
  destruct (db_store s) eqn:Ed; simpl; [|by rewrite Ed].
  destruct (articles_data s) eqn:Ea; simpl; rewrite ?Ed, ?Ea, ?app_nil_r; done.
Qed.

(** [save_to_csv] calls [to_csv] at most once, on the whole list, and
    leaves the records and the table alone. *)
Lemma save_to_csv_frame (w : world) (s : scraper) :
  articles_data (save_to_csv w s).2 = articles_data s ∧
  db_rows (save_to_csv w s).2 = db_rows s ∧
  db_store (save_to_csv w s).2 = db_store s ∧
  (length (csv_calls (save_to_csv w s).2) ≤ S (length (csv_calls s)))%nat ∧
  (files (save_to_csv w s).2 = files s ∨
   ∃ name, files (save_to_csv w s).2 = files s ++ [(name, articles_data s)]).
Proof.
  unfold save_to_csv. destruct (articles_data s) as [|r rs] eqn:Ea; simpl.
  { rewrite Ea. repeat split; auto. }
  destruct (w_to_csv w (S (tick s)) _); simpl; rewrite ?Ea, ?length_app; simpl;
    repeat split; eauto; lia.
Qed.

(** X10. A run writes at most one CSV file, and that file holds exactly
    the records of the final result set, in order; with [--db] the
    table receives exactly those records too, and without it none. *)
Theorem run_exports_the_result_set_once (w : world) (a : args) (fuel : nat)
    (final : scraper) :
  main w a fuel = Some final →
  (length (csv_calls final) ≤ 1)%nat ∧
  (files final = [] ∨ ∃ name, files final = [(name, articles_data final)]) ∧
  db_rows final = (if arg_db a then articles_data final else []).
Proof.
  unfold main.
  destruct (acquire w a fuel (WikipediaScraper a)) as [[b s]|] eqn:E; [|done].
  apply acquire_frame in E as [(Hc & Hf & Hr & Hd) Hempty].
  assert (Hc0 : csv_calls s = [])
    by (rewrite Hc; unfold WikipediaScraper; by destruct (arg_db a)).
  assert (Hf0 : files s = [])
    by (rewrite Hf; unfold WikipediaScraper; by destruct (arg_db a)).
  assert (Hr0 : db_rows s = [])
    by (rewrite Hr; unfold WikipediaScraper; by destruct (arg_db a)).
  assert (Hd0 : db_store s = arg_db a)
    by (rewrite Hd; unfold WikipediaScraper; by destruct (arg_db a)).
  destruct b.
  - destruct (save_to_csv_frame w s) as (Ha1 & Hr1 & Hd1 & Hc1 & Hf1).
    destruct (save_to_csv w s) as [ok s1]; simpl in *.
    destruct (save_to_database_frame s1) as (Ha2 & Hc2 & Hf2 & _ & Hr2).
    intros [= <-].
    destruct (close_frame (if arg_db a then (save_to_database s1).2 else s1))
      as (-> & -> & -> & ->).
    rewrite Hc0 in Hc1. rewrite Hf0 in Hf1. simpl in Hc1, Hf1.
    rewrite Hd1, Hd0, Hr1, Hr0 in Hr2. simpl in Hr2.
    destruct (arg_db a); rewrite ?Ha2, ?Hc2, ?Hf2, ?Hr2, ?Ha1, ?Hr1;
      repeat split; try done.
  - intros [= <-]. destruct (close_frame s) as (-> & -> & -> & ->).
    assert (Ha0 : articles_data s = []).
    { rewrite Hempty by done. unfold WikipediaScraper. by destruct (arg_db a). }
    rewrite Hc0, Hf0, Hr0, Ha0. repeat split; auto. by destruct (arg_db a).
Qed.

(** The run with every default on the site of the main page. *)
Lemma run_exports_the_result_set_once_witness :
  ∃ final,
    main featured_site no_options 30 = Some final ∧
    (files final = [] ∨ ∃ name, files final = [(name, articles_data final)]).
Proof.
  pose proof (run_exports_the_result_set_once featured_site no_options 30)
    as Hrun.
  destruct (main featured_site no_options 30) as [final|] eqn:E.
  - exists final. split; [reflexivity|]. by apply Hrun.
  - vm_compute in E. discriminate E.
Defined.

(** ** Random sampling, for any fuel *)

(** When the loop returns it has loaded the random endpoint and nothing
    else, once per turn, and has appended one record for each unit the
    counter was short of [count]. *)
Lemma random_loop_result (w : world) (count : Z) (fuel : nat) (n : Z)
    (s : scraper) (n' : Z) (s' : scraper) :
  random_loop w count fuel n s = Some (n', s') →
  n' = Z.max n count ∧
  length (articles_data s') =
    (length (articles_data s) + Z.to_nat (count - n))%nat ∧
  ∃ k, (Z.to_nat (count - n) ≤ k)%nat ∧
       loaded (log s') = loaded (log s) ++ replicate k random_url.
Proof.
  revert n s. induction fuel as [|fuel IH]; intros n s; simpl;
    case_bool_decide as Hlt; try done;
    try (intros [= <- <-]; split; [lia|]; split; [lia|];
         exists 0%nat; split; [lia|]; simpl; by rewrite app_nil_r).
  pose proof (random_body_appends w s) as [_ Hlen].
  assert (Hload : loaded (log (random_body w s).2) = loaded (log s) ++ [random_url]).
  { unfold random_body.
    pose proof (navigate_to_url_loaded w random_url s ltac:(discriminate)) as Hn.
    destruct (navigate_to_url w (Some random_url) s) as [b s1]; simpl in Hn.
    pose proof (extract_article_data_loaded w s1) as Hx.
    destruct (extract_article_data w s1) as [r s2]; simpl in *. congruence. }
  destruct (random_body w s) as [ok s1]; simpl in Hlen, Hload.
  intros Hrun. apply IH in Hrun as (Hn' & Hl & k & Hk & Hlog).
  split; [destruct ok; lia|]. split; [rewrite Hl, Hlen; destruct ok; lia|].
  exists (S k). split; [destruct ok; lia|].
  rewrite Hlog, Hload, <- app_assoc. done.
Qed.

(** X11. Whenever random sampling returns, it returns [True], it has
    appended exactly [count] records (none for a [count] below one), and
    every page it has loaded is the random endpoint, loaded at least
    [count] times. *)
Theorem random_sampling_result (w : world) (count : Z) (fuel : nat)
    (s : scraper) (b : bool) (s' : scraper) :
  collect_random_articles w count fuel s = Some (b, s') →
  b = true ∧
  length (articles_data s') = (length (articles_data s) + Z.to_nat count)%nat ∧
  ∃ k, (Z.to_nat count ≤ k)%nat ∧
       loaded (log s') = loaded (log s) ++ replicate k random_url.
Proof.
  unfold collect_random_articles.
  destruct (random_loop w count fuel 0 s) as [[n s1]|] eqn:E; [|done].
  intros [= <- <-].
  apply random_loop_result in E as (_ & Hl & k & Hk & Hlog).
  rewrite Z.sub_0_r in Hl, Hk. split; [done|]. split; [done|].
  exists k. split; [done|]. simpl. unfold loaded in *.
  rewrite omap_app, Hlog. simpl. by rewrite app_nil_r.
Qed.

(** Three records from a site where every page has a heading. *)
Lemma random_sampling_result_witness :
  ∃ s',
    collect_random_articles (always page_A) 3 5 (scraper_on page_A) = Some (true, s') ∧
    length (articles_data s') = 3%nat.
Proof.
  pose proof (random_sampling_result (always page_A) 3 5 (scraper_on page_A))
    as Hrun.
  destruct (collect_random_articles (always page_A) 3 5 (scraper_on page_A))
    as [[b s']|] eqn:E.
  - destruct (Hrun b s' eq_refl) as (-> & Hl & _). exists s'. by split.
  - vm_compute in E. discriminate E.
Defined.

(** ** The default run *)

Lemma grows_by_length (ls : list string) (s s' : scraper) :
  grows_by ls s s' →
  length (articles_data s') = (length (articles_data s) + length ls)%nat.
Proof.
  intros (new & E & L & _). rewrite E, length_app. f_equal.
  apply (f_equal length) in L. unfold labels_of in L.
  by rewrite !length_fmap in L.
Qed.

(** The featured harvest appends at most sixteen records from its zones,
    and goes beyond that only to reach [count]. *)
Lemma featured_length_bound (w : world) (count : Z) (s : scraper) :
  Z.of_nat (length (articles_data (extract_featured_articles w count s).2)) ≤
  Z.max (Z.of_nat (length (articles_data s)) + 16) count.
Proof.
  unfold extract_featured_articles.
  pose proof (navigate_to_url_articles w (Some main_page_url) s) as Hn.
  destruct (navigate_to_url w (Some main_page_url) s) as [b0 s0]; simpl in Hn.
  unfold featured_zones.
  destruct (pg_tfa (driver s0)) as [box|]; [|simpl; rewrite Hn; lia].
  destruct (tfa_link box) as [lk|]; [|simpl; rewrite Hn; lia].
  destruct (tfa_p box) as [summary|]; [|simpl; rewrite Hn; lia]. simpl.
  set (s1 := append_labelled w (a_text lk) (a_href lk) summary "Featured" s0).
  assert (H1 : length (articles_data s1) = S (length (articles_data s))).
  { unfold s1. rewrite append_labelled_articles, length_app, Hn. simpl. lia. }
  assert (H4 : (length (articles_data (digests w s1)) ≤
                length (articles_data s1) + 15)%nat).
  { unfold digests.
    destruct (digest_grows w "In the news" (pg_itn (driver s1)) s1)
      as (a & Ha & Hga%grows_by_length).
    set (s2 := digest w "In the news" (pg_itn (driver s1)) s1) in *.
    destruct (digest_grows w "Did you know" (pg_dyk (driver s2)) s2)
      as (b & Hb & Hgb%grows_by_length).
    set (s3 := digest w "Did you know" (pg_dyk (driver s2)) s2) in *.
    destruct (digest_grows w "On this day" (pg_otd (driver s3)) s3)
      as (c & Hc & Hgc%grows_by_length).
    rewrite length_replicate in Hga, Hgb, Hgc. lia. }
  set (s4 := digests w s1) in *.
  unfold archive_top_up. case_bool_decide; [|lia].
  pose proof (navigate_to_url_articles w (Some archive_url) s4) as Ha.
  destruct (navigate_to_url w (Some archive_url) s4) as [b1 s']; simpl in Ha.
  rewrite archive_loop_length, Ha. lia.
Qed.

(** X12. A run with no strategy option that gets past its first load and
    returns has collected exactly twenty records: the featured harvest
    with a target of ten never reaches twenty, and random sampling makes
    up the difference.  A run whose first load fails has none. *)
Theorem default_run_collects_twenty (w : world) (a : args) (fuel : nat)
    (final : scraper) :
  given (arg_search a) = false →
  arg_featured a = false → arg_random a = false → arg_crawl a = false →
  main w a fuel = Some final →
  length (articles_data final) =
    if (navigate_to_url w None (WikipediaScraper a)).1 then 20%nat else 0%nat.
Proof.
  intros Hs Hf Hr Hc. unfold main, acquire. rewrite Hs, Hf, Hr, Hc.
  pose proof (navigate_to_url_articles w None (WikipediaScraper a)) as Hn.
  assert (H0 : articles_data (WikipediaScraper a) = [])
    by (unfold WikipediaScraper; by destruct (arg_db a)).
  rewrite H0 in Hn.
  destruct (navigate_to_url w None (WikipediaScraper a)) as [loaded s1];
    simpl in Hn.
  destruct loaded; simpl.
  2:{ intros [= <-]. destruct (close_frame s1) as (-> & _). by rewrite Hn. }
  pose proof (featured_length_bound w 10 s1) as Hb. rewrite Hn in Hb.
  simpl in Hb.
  destruct (extract_featured_articles w 10 s1) as [b s2]; simpl in Hb.
  rewrite bool_decide_eq_true_2 by lia.
  destruct (collect_random_articles _ _ _ _) as [[b' s3]|] eqn:E; [|done].
  apply random_sampling_result in E as (_ & Hl & _).
  destruct (save_to_csv_frame w s3) as (Ha1 & _).
  destruct (save_to_csv w s3) as [ok s4]; simpl in Ha1.
  destruct (save_to_database_frame s4) as (Ha2 & _).
  intros [= <-].
  destruct (close_frame (if arg_db a then (save_to_database s4).2 else s4))
    as (-> & _).
  destruct (arg_db a); rewrite ?Ha2, Ha1, Hl; lia.
Qed.

(** The run with every default on the site of the main page. *)
Lemma default_run_collects_twenty_witness :
  ∃ final,
    main featured_site no_options 30 = Some final ∧
    length (articles_data final) = 20%nat.
Proof.
  pose proof (default_run_collects_twenty featured_site no_options 30) as Hrun.
  destruct (main featured_site no_options 30) as [final|] eqn:E.
  - exists final. split; [reflexivity|].
    by rewrite (Hrun final eq_refl eq_refl eq_refl eq_refl eq_refl).
  - vm_compute in E. discriminate E.
Defined.

(** ** The database *)

(** X13. Provided sqlite raises nothing, [save_to_database] with the store
    on and a record to save returns [True] and appends every record, in
    order, to the table; the records stay in the result set, so a second
    call inserts them a second time.  With the store off, or with no
    record, it returns [False] and inserts nothing. *)
Theorem save_to_database_inserts_again (s : scraper) :
  (save_to_database s).1 =
    db_store s && bool_decide (articles_data s ≠ []) ∧
  (db_store s = true →
   db_rows (save_to_database s).2 = db_rows s ++ articles_data s ∧
   db_rows (save_to_database (save_to_database s).2).2 =
     db_rows s ++ articles_data s ++ articles_data s) ∧
  (db_store s = false → (save_to_database s).2 = s).
Proof.
  split; [|split].
  - unfold save_to_database. destruct (db_store s); [|done].
    by destruct (articles_data s).
  - intros Hd.
    destruct (save_to_database_frame s) as (Ha & _ & _ & Hd1 & Hr).
    destruct (save_to_database_frame (save_to_database s).2)
      as (_ & _ & _ & _ & Hr2).
    rewrite Hd in Hr. rewrite Hd1, Hd, Hr, Ha in Hr2.
    split; [done|]. by rewrite Hr2, <- app_assoc.
  - intros Hd. unfold save_to_database. by rewrite Hd.
Qed.

(** On a scraper that holds two records, with the store on. *)
Lemma save_to_database_inserts_again_witness :
  length (db_rows (save_to_database (save_to_database scraper_with_store).2).2)
  = 4%nat.
Proof.
  destruct (proj1 (proj2 (save_to_database_inserts_again scraper_with_store))
              eq_refl) as [_ ->].
  reflexivity.
Defined.

(** ** Extracting a page twice *)



(** ** A run that crawls *)



